(** * Equipment CSV ingestion, analytics and dataset retention

    A shallow embedding of the backend services of the equipment
    application:

    - [CSVParserService]  (apps/equipment/services/csv_parser.py)
    - [AnalyticsService]  (apps/equipment/services/analytics.py)
    - [DatasetViewSet._enforce_dataset_limit]  (apps/equipment/views.py)

    Python [float] is IEEE binary64 and is embedded as Rocq's primitive
    [float]; Python [dict]s are insertion ordered and are embedded as
    association lists, because the order of their keys is observable in
    the chart payload. *)

From Stdlib Require Import String Ascii List Bool Arith ZArith Lia.
From Stdlib Require Import Permutation Sorted DecimalString Floats.
From Stdlib Require Uint63.
Import ListNotations.

Local Open Scope string_scope.
Local Open Scope list_scope.
Local Open Scope nat_scope.

(* ================================================================= *)
(** ** Python values *)

(** [float(n)] for a length or a count. *)
Definition float_of_nat (n : nat) : float :=
  PrimFloat.of_uint63 (Uint63.of_Z (Z.of_nat n)).

(** [str(n)] for a length or a count, as an f-string prints it. *)
Definition str_of_nat (n : nat) : string :=
  NilEmpty.string_of_uint (Nat.to_uint n).

(** [d[k]] on an insertion-ordered dict; [None] stands for [KeyError]. *)
Fixpoint lookup {V : Type} (k : string) (d : list (string * V)) : option V :=
  match d with
  | [] => None
  | (k', v) :: d' => if String.eqb k k' then Some v else lookup k d'
  end.

Definition keys {V : Type} (d : list (string * V)) : list string := map fst d.
Definition values {V : Type} (d : list (string * V)) : list V := map snd d.

(** A list comprehension whose element expression may raise. *)
Fixpoint comprehension {A B : Type} (f : A -> option B) (l : list A)
  : option (list B) :=
  match l with
  | [] => Some []
  | a :: l' =>
      match f a, comprehension f l' with
      | Some b, Some bs => Some (b :: bs)
      | _, _ => None
      end
  end.

(* ================================================================= *)
(** ** The pandas operations the services call *)

Module Series.

(** [skipna=True]: the reductions leave NaN entries out. *)
Definition dropna (xs : list float) : list float :=
  filter (fun x => negb (PrimFloat.is_nan x)) xs.

(** [skipna=True] in a sum: pandas puts 0.0 in the place of a NaN entry
    ([np.putmask(values, mask, 0)]) and adds the whole array, so a missing
    entry keeps its position. *)
Definition fillna0 (xs : list float) : list float :=
  map (fun x => if PrimFloat.is_nan x then 0%float else x) xs.

(** numpy's add-reduction of a float64 array (pairwise summation).

    - Fewer than eight values are added left to right, starting from
      -0.0.
    - Eight to 128 values go through eight accumulators: value [i] is
      added to accumulator [i mod 8] for as long as a full group of eight
      is left, the accumulators are combined as
      ((r0+r1)+(r2+r3))+((r4+r5)+(r6+r7)), and what is left of the array
      is added to that left to right.
    - More than 128 values are cut at [n/2 - (n/2) mod 8] and the sums of
      the two parts are added.

    The reduction starts from the identity of the addition, -0.0 (0.0
    for an empty array), to which the sum of the array is added; older
    versions of numpy start from 0.0, which shows only in the sign of a
    sum of negative zeros. *)
Fixpoint unrolled (r0 r1 r2 r3 r4 r5 r6 r7 : float) (xs : list float) : float :=
  match xs with
  | a0 :: a1 :: a2 :: a3 :: a4 :: a5 :: a6 :: a7 :: xs' =>
      unrolled (r0 + a0) (r1 + a1) (r2 + a2) (r3 + a3)
               (r4 + a4) (r5 + a5) (r6 + a6) (r7 + a7) xs'
  | rest =>
      fold_left PrimFloat.add rest
        (((r0 + r1) + (r2 + r3)) + ((r4 + r5) + (r6 + r7)))%float
  end.

Definition block_sum (xs : list float) : float :=
  match xs with
  | a0 :: a1 :: a2 :: a3 :: a4 :: a5 :: a6 :: a7 :: xs' =>
      unrolled a0 a1 a2 a3 a4 a5 a6 a7 xs'
  | _ => fold_left PrimFloat.add xs PrimFloat.neg_zero
  end.

Definition PW_BLOCKSIZE : nat := 128.

(** The recursion halves the array; [fuel] bounds its depth, and the
    length of the array is always enough ([pairwise_sum_fuel]). *)
Fixpoint pairwise_sum (fuel : nat) (xs : list float) : float :=
  match fuel with
  | 0 => block_sum xs
  | S fuel' =>
      let n := List.length xs in
      if n <=? PW_BLOCKSIZE then block_sum xs
      else
        let n2 := n / 2 - (n / 2) mod 8 in
        (pairwise_sum fuel' (firstn n2 xs) + pairwise_sum fuel' (skipn n2 xs))%float
  end.

Definition add_reduce (xs : list float) : float :=
  match xs with
  | [] => 0%float
  | _ :: _ => (PrimFloat.neg_zero + pairwise_sum (List.length xs) xs)%float
  end.

(** [Series.sum()]. *)
Definition sum (xs : list float) : float := add_reduce (fillna0 xs).

Definition count (xs : list float) : nat := List.length (dropna xs).

(** [Series.mean()]: the sum divided by the count of present values. *)
Definition mean (xs : list float) : float :=
  match dropna xs with
  | [] => PrimFloat.nan
  | _ :: _ => (sum xs / float_of_nat (count xs))%float
  end.

Definition fmin (a x : float) : float := if (a <? x)%float then a else x.
Definition fmax (a x : float) : float := if (x <? a)%float then a else x.

Definition min (xs : list float) : float :=
  match dropna xs with
  | [] => PrimFloat.nan
  | x :: tl => fold_left fmin tl x
  end.

Definition max (xs : list float) : float :=
  match dropna xs with
  | [] => PrimFloat.nan
  | x :: tl => fold_left fmax tl x
  end.

(** [Series.var()] with the default [ddof=1]: squared deviations from
    the mean, summed and divided by (count - 1); a missing entry counts
    for 0.0 in both sums. *)
Definition var (xs : list float) : float :=
  let n := count xs in
  if n <=? 1 then PrimFloat.nan
  else
    let avg := (add_reduce (fillna0 xs) / float_of_nat n)%float in
    let sqr :=
      map (fun x => if PrimFloat.is_nan x then 0%float
                    else ((avg - x) * (avg - x))%float) xs in
    (add_reduce sqr / float_of_nat (n - 1))%float.

(** [Series.std()]. *)
Definition std (xs : list float) : float := PrimFloat.sqrt (var xs).

(** [Series.unique()]: the distinct values in order of first appearance. *)
Fixpoint unique (l : list string) : list string :=
  match l with
  | [] => []
  | x :: l' => x :: filter (fun y => negb (String.eqb y x)) (unique l')
  end.

Definition count_of (t : string) (l : list string) : nat :=
  List.length (filter (String.eqb t) l).

(** Descending sort of (value, count) pairs on the count; pairs with
    equal counts keep their order (the order among equal counts differs
    between pandas versions). *)
Fixpoint insert_desc (p : string * nat) (l : list (string * nat))
  : list (string * nat) :=
  match l with
  | [] => [p]
  | q :: l' =>
      if snd q <=? snd p then p :: q :: l' else q :: insert_desc p l'
  end.

Definition sort_values_desc (l : list (string * nat)) : list (string * nat) :=
  fold_right insert_desc [] l.

(** [Series.value_counts()]: the count of each distinct value, most
    frequent first. *)
Definition value_counts (l : list string) : list (string * nat) :=
  sort_values_desc (map (fun t => (t, count_of t l)) (unique l)).

End Series.

(* ================================================================= *)
(** ** models.py: the Equipment rows

    A queryset of Equipment is embedded as the list of its rows in the
    order the database returns them ([Meta.ordering] is by name). *)

Record Equipment : Type := {
  name : string;
  type : string;
  flowrate : float;
  pressure : float;
  temperature : float
}.

(* ================================================================= *)
(** ** services/analytics.py *)

(** The [{'avg', 'min', 'max', 'std'}] dict of one measurement. *)
Module FieldStats.
Record t : Type := { avg : float; min : float; max : float; std : float }.
End FieldStats.

(** One entry of [stats_by_type]. *)
Module TypeStats.
Record t : Type := {
  count : nat;
  flowrate : FieldStats.t;
  pressure : FieldStats.t;
  temperature : FieldStats.t
}.
End TypeStats.

Module Bar.
Record dataset : Type := { label : string; data : list float }.
Record t : Type := { labels : list string; datasets : list dataset }.
End Bar.

Module Pie.
Record t : Type := { labels : list string; data : list nat }.
End Pie.

Record ChartData : Type := {
  bar_chart : Bar.t;
  pie_chart : Pie.t
}.

Module AnalyticsService.

Record analytics : Type := {
  total_count : nat;
  avg_flowrate : float;
  avg_pressure : float;
  avg_temperature : float;
  min_flowrate : float;
  max_flowrate : float;
  min_pressure : float;
  max_pressure : float;
  min_temperature : float;
  max_temperature : float;
  std_flowrate : float;
  std_pressure : float;
  std_temperature : float;
  type_distribution : list (string * nat);
  stats_by_type : list (string * TypeStats.t)
}.

(** The twelve float statistics of a snapshot. *)
Definition statistics (a : analytics) : list float :=
  [ avg_flowrate a; avg_pressure a; avg_temperature a;
    min_flowrate a; max_flowrate a;
    min_pressure a; max_pressure a;
    min_temperature a; max_temperature a;
    std_flowrate a; std_pressure a; std_temperature a ].

Definition _empty_analytics : analytics := {|
  total_count := 0;
  avg_flowrate := 0; avg_pressure := 0; avg_temperature := 0;
  min_flowrate := 0; max_flowrate := 0;
  min_pressure := 0; max_pressure := 0;
  min_temperature := 0; max_temperature := 0;
  std_flowrate := 0; std_pressure := 0; std_temperature := 0;
  type_distribution := [];
  stats_by_type := []
|}.

Definition _compute_type_distribution (df : list Equipment)
  : list (string * nat) :=
  Series.value_counts (map type df).

(** [x.std() if len(frame) > 1 else 0.0] *)
Definition guarded_std (n : nat) (xs : list float) : float :=
  if 1 <? n then Series.std xs else 0%float.

Definition field_stats (n : nat) (xs : list float) : FieldStats.t := {|
  FieldStats.avg := Series.mean xs;
  FieldStats.min := Series.min xs;
  FieldStats.max := Series.max xs;
  FieldStats.std := guarded_std n xs
|}.

(** [df[df['type'] == equipment_type]] *)
Definition rows_of_type (t : string) (df : list Equipment) : list Equipment :=
  filter (fun r => String.eqb (type r) t) df.

Definition type_entry (df : list Equipment) (equipment_type : string)
  : string * TypeStats.t :=
  let type_df := rows_of_type equipment_type df in
  let n := List.length type_df in
  (equipment_type,
   {| TypeStats.count := n;
      TypeStats.flowrate := field_stats n (map flowrate type_df);
      TypeStats.pressure := field_stats n (map pressure type_df);
      TypeStats.temperature := field_stats n (map temperature type_df) |}).

Definition _compute_stats_by_type (df : list Equipment)
  : list (string * TypeStats.t) :=
  map (type_entry df) (Series.unique (map type df)).

Definition compute_analytics (equipment_queryset : list Equipment) : analytics :=
  let df := equipment_queryset in
  match df with
  | [] => _empty_analytics
  | _ :: _ =>
      let n := List.length df in
      {| total_count := n;
         avg_flowrate := Series.mean (map flowrate df);
         avg_pressure := Series.mean (map pressure df);
         avg_temperature := Series.mean (map temperature df);
         min_flowrate := Series.min (map flowrate df);
         max_flowrate := Series.max (map flowrate df);
         min_pressure := Series.min (map pressure df);
         max_pressure := Series.max (map pressure df);
         min_temperature := Series.min (map temperature df);
         max_temperature := Series.max (map temperature df);
         std_flowrate := guarded_std n (map flowrate df);
         std_pressure := guarded_std n (map pressure df);
         std_temperature := guarded_std n (map temperature df);
         type_distribution := _compute_type_distribution df;
         stats_by_type := _compute_stats_by_type df |}
  end.

(** [[stats_by_type[t][field]['avg'] for t in types]] *)
Definition averages (field : TypeStats.t -> FieldStats.t)
    (stats : list (string * TypeStats.t)) (types : list string)
  : option (list float) :=
  comprehension
    (fun t => option_map (fun s => FieldStats.avg (field s)) (lookup t stats))
    types.

Definition get_chart_data (a : analytics) : option ChartData :=
  let type_distribution := type_distribution a in
  let stats_by_type := stats_by_type a in
  let types := keys stats_by_type in
  match averages TypeStats.flowrate stats_by_type types,
        averages TypeStats.pressure stats_by_type types,
        averages TypeStats.temperature stats_by_type types with
  | Some fl, Some pr, Some te =>
      Some {|
        bar_chart := {|
          Bar.labels := types;
          Bar.datasets :=
            [ {| Bar.label := "Avg Flowrate"; Bar.data := fl |};
              {| Bar.label := "Avg Pressure"; Bar.data := pr |};
              {| Bar.label := "Avg Temperature"; Bar.data := te |} ] |};
        pie_chart := {|
          Pie.labels := keys type_distribution;
          Pie.data := values type_distribution |}
      |}
  | _, _, _ => None
  end.

End AnalyticsService.

(* ================================================================= *)
(** ** Vocabulary of the statements about the aggregator *)

(** A row whose three measurements are present (none is NaN). *)
Definition numeric (r : Equipment) : Prop :=
  PrimFloat.is_nan (flowrate r) = false
  /\ PrimFloat.is_nan (pressure r) = false
  /\ PrimFloat.is_nan (temperature r) = false.

(** [lo <= x <= hi] in binary64. *)
Definition between (lo x hi : float) : Prop :=
  (lo <=? x)%float = true /\ (x <=? hi)%float = true /\ (lo <=? hi)%float = true.




(** Three rows of one type whose measurements are all 0.1
    (0x1.999999999999ap-4 is the binary64 value of the literal 0.1). *)
Definition tenth : float := 0x1.999999999999ap-4%float.

Definition pump_tenth (name : string) : Equipment :=
  {| name := name; type := "Pump";
     flowrate := tenth; pressure := tenth; temperature := tenth |}.

Definition three_tenths : list Equipment :=
  [pump_tenth "P1"; pump_tenth "P2"; pump_tenth "P3"].

(** Ten such rows, enough for the sum to go through the eight
    accumulators. *)
Definition ten_tenths : list Equipment :=
  map pump_tenth ["P00"; "P01"; "P02"; "P03"; "P04"; "P05"; "P06"; "P07"; "P08"; "P09"].

(** The example of the specification with the less frequent type on the
    row that comes first by name: a valve, then two pumps. *)
Definition valve_5 : Equipment :=
  {| name := "E1"; type := "Valve";
     flowrate := 5; pressure := 1; temperature := 20 |}.

Definition pump_10 : Equipment :=
  {| name := "E2"; type := "Pump";
     flowrate := 10; pressure := 2; temperature := 30 |}.

Definition pump_20 : Equipment :=
  {| name := "E3"; type := "Pump";
     flowrate := 20; pressure := 3; temperature := 40 |}.

Definition valve_then_pumps : list Equipment := [valve_5; pump_10; pump_20].

(* ================================================================= *)
(** ** Python [str] methods

    Header names are texts over the code points 0..255 (every text that
    the Latin-1 fallback produces). *)

Module Str.

(** [c.lower()]: A-Z and the accented capitals of Latin-1. *)
Definition lower_char (c : ascii) : ascii :=
  let n := nat_of_ascii c in
  if ((65 <=? n) && (n <=? 90))
     || ((192 <=? n) && (n <=? 222) && negb (n =? 215))
  then ascii_of_nat (n + 32)
  else c.

Fixpoint lower (s : string) : string :=
  match s with
  | EmptyString => EmptyString
  | String c s' => String (lower_char c) (lower s')
  end.

(** [c.isspace()] *)
Definition isspace (c : ascii) : bool :=
  let n := nat_of_ascii c in
  ((9 <=? n) && (n <=? 13)) || ((28 <=? n) && (n <=? 32))
  || (n =? 133) || (n =? 160).

Fixpoint lstrip (s : string) : string :=
  match s with
  | EmptyString => EmptyString
  | String c s' => if isspace c then lstrip s' else s
  end.

Fixpoint rstrip (s : string) : string :=
  match s with
  | EmptyString => EmptyString
  | String c s' =>
      match rstrip s' with
      | EmptyString => if isspace c then EmptyString else String c EmptyString
      | r => String c r
      end
  end.

Definition strip (s : string) : string := lstrip (rstrip s).

(** [sep.join(parts)] *)
Definition join (sep : string) (parts : list string) : string :=
  String.concat sep parts.

End Str.

(** [x in l] for a list of texts. *)
Definition mem (x : string) (l : list string) : bool :=
  existsb (String.eqb x) l.

(* ================================================================= *)
(** ** Data frames

    A frame is its column labels and its rows of cells, one cell per
    column.  A cell is a float (NaN is the missing value), an integer, or
    a text.  *)

Inductive cell : Type :=
| Num (x : float)
| Int (n : Z)
| Text (s : string).

Record DataFrame : Type := {
  columns : list string;
  rows : list (list cell)
}.

Module Frame.

(** [pd.DataFrame()] *)
Definition new : DataFrame := {| columns := []; rows := [] |}.

(** [df.empty]: some axis has length 0. *)
Definition empty (df : DataFrame) : bool :=
  (List.length (columns df) =? 0) || (List.length (rows df) =? 0).

Definition missing : cell := Num PrimFloat.nan.

Definition isnull (c : cell) : bool :=
  match c with
  | Num x => PrimFloat.is_nan x
  | Int _ | Text _ => false
  end.

(** Position of a label among the columns. *)
Fixpoint position (col : string) (cols : list string) : option nat :=
  match cols with
  | [] => None
  | c :: cols' =>
      if String.eqb col c then Some 0
      else option_map S (position col cols')
  end.

Definition at_position (i : nat) (row : list cell) : cell := nth i row missing.

(** [df[col]]; [None] stands for [KeyError]. *)
Definition column (col : string) (df : DataFrame) : option (list cell) :=
  option_map (fun i => map (at_position i) (rows df)) (position col (columns df)).

Fixpoint update_at (i : nat) (f : cell -> cell) (row : list cell) : list cell :=
  match row, i with
  | [], _ => []
  | c :: row', 0 => f c :: row'
  | c :: row', S i' => c :: update_at i' f row'
  end.

(** [if col in df.columns: df[col] = f(df[col])], cell by cell. *)
Definition map_column (col : string) (f : cell -> cell) (df : DataFrame)
  : DataFrame :=
  match position col (columns df) with
  | None => df
  | Some i => {| columns := columns df; rows := map (update_at i f) (rows df) |}
  end.

(** [df.rename(columns={old: new})] *)
Definition rename_column (old new : string) (df : DataFrame) : DataFrame :=
  {| columns := map (fun c => if String.eqb c old then new else c) (columns df);
     rows := rows df |}.

(** [df.rename(columns=mapping)] *)
Definition rename (mapping : list (string * string)) (df : DataFrame)
  : DataFrame :=
  {| columns :=
       map (fun c => match lookup c mapping with Some c' => c' | None => c end)
           (columns df);
     rows := rows df |}.

(** [df.dropna(how='all')] *)
Definition dropna_all (df : DataFrame) : DataFrame :=
  {| columns := columns df;
     rows := filter (fun row => negb (forallb isnull row)) (rows df) |}.

(** Positions of the labels of [subset]; [None] when one is no column. *)
Definition positions (subset : list string) (df : DataFrame) : option (list nat) :=
  comprehension (fun col => position col (columns df)) subset.

Definition complete_at (ps : list nat) (row : list cell) : bool :=
  forallb (fun i => negb (isnull (at_position i row))) ps.

(** [df.dropna(subset=subset)]; [None] stands for [KeyError]. *)
Definition dropna_subset (subset : list string) (df : DataFrame)
  : option DataFrame :=
  option_map
    (fun ps => {| columns := columns df;
                  rows := filter (complete_at ps) (rows df) |})
    (positions subset df).

(** [series.isnull().sum()] *)
Definition null_count (cells : list cell) : nat :=
  List.length (filter isnull cells).

(** [x < 0] on one numeric cell; [None] stands for the [TypeError] of a
    text compared with a number. *)
Definition negative (c : cell) : option bool :=
  match c with
  | Num x => Some (x <? 0)%float
  | Int n => Some (n <? 0)%Z
  | Text _ => None
  end.

(** [(series < 0).any()] *)
Definition any_negative (cells : list cell) : option bool :=
  option_map (existsb (fun b => b)) (comprehension negative cells).

End Frame.

(* ================================================================= *)
(** ** services/csv_parser.py *)

Module CSVParserService.

Definition REQUIRED_COLUMNS : list string :=
  ["Equipment Name"; "Type"; "Flowrate"; "Pressure"; "Temperature"].

Definition COLUMN_MAPPING : list (string * string) :=
  [ ("Equipment Name", "name");
    ("Type", "type");
    ("Flowrate", "flowrate");
    ("Pressure", "pressure");
    ("Temperature", "temperature") ].

(** The exceptions [parse_file] tells apart, with the text of [str(e)]. *)
Inductive exn : Type :=
| EmptyDataError (msg : string)
| ParserError (msg : string)
| Exception (msg : string).

(** The state of the service object. *)
Record parser : Type := {
  errors : list string;
  warnings : list string
}.

(** Methods of the service: they read and update the two lists and
    either return or raise; what was appended before a raise stays. *)
Definition M (A : Type) : Type := parser -> (exn + A) * parser.

Definition ret {A : Type} (a : A) : M A := fun p => (inr a, p).

Definition raise {A : Type} (e : exn) : M A := fun p => (inl e, p).

Definition bind {A B : Type} (m : M A) (k : A -> M B) : M B :=
  fun p =>
    match m p with
    | (inr a, p') => k a p'
    | (inl e, p') => (inl e, p')
    end.

Notation "x <- m ;; k" := (bind m (fun x => k))
  (at level 61, m at next level, right associativity).
Notation "m ;; k" := (bind m (fun _ => k))
  (at level 61, right associativity).

(** [self.errors.append(msg)] *)
Definition add_error (msg : string) : M unit :=
  fun p => (inr tt, {| errors := errors p ++ [msg]; warnings := warnings p |}).

(** [self.warnings.append(msg)] *)
Definition add_warning (msg : string) : M unit :=
  fun p => (inr tt, {| errors := errors p; warnings := warnings p ++ [msg] |}).

(** A pandas lookup that fails raises. *)
Definition found {A : Type} (what : string) (o : option A) : M A :=
  match o with
  | Some a => ret a
  | None => raise (Exception what)
  end.

(** [for x in l: body(x)] *)
Fixpoint for_each {A : Type} (body : A -> M unit) (l : list A) : M unit :=
  match l with
  | [] => ret tt
  | x :: l' => body x ;; for_each body l'
  end.

(** What the library calls at the head of [parse_file] do on an uploaded
    file: [file_obj.read()] raises, or it returns bytes that decode as
    UTF-8 or only as Latin-1 and on whose text [pd.read_csv] raises or
    returns a frame. *)
Inductive UploadedFile : Type :=
| Unreadable (msg : string)
| Content (utf8 : bool) (read_csv : exn + DataFrame).

Section Service.

(** [pd.to_numeric] on one text value: its number, if it reads as one. *)
Variable to_numeric_text : string -> option float.

(** [str(x)] on a float. *)
Variable float_str : float -> string.

(** The first header that is [col] up to letter case and surrounding
    whitespace. *)
Fixpoint matching_header (col : string) (actual : list string) : option string :=
  match actual with
  | [] => None
  | actual_col :: rest =>
      if String.eqb (Str.strip (Str.lower actual_col)) (Str.lower col)
      then Some actual_col
      else matching_header col rest
  end.

(** One round of the loop over [REQUIRED_COLUMNS]; the frame is renamed
    in place. *)
Definition check_column (st : DataFrame * list string) (col : string)
  : DataFrame * list string :=
  let (df, missing_columns) := st in
  if mem col (columns df) then st
  else
    match matching_header col (columns df) with
    | Some actual_col => (Frame.rename_column actual_col col df, missing_columns)
    | None => (df, missing_columns ++ [col])
    end.

(** Returns the frame as the call leaves it, with the verdict. *)
Definition _validate_columns (df : DataFrame) : M (DataFrame * bool) :=
  let (df', missing_columns) := fold_left check_column REQUIRED_COLUMNS (df, []) in
  match missing_columns with
  | [] => ret (df', true)
  | _ :: _ =>
      add_error ("Missing required columns: "
                 ++ Str.join ", " missing_columns)%string ;;
      ret (df', false)
  end.

Definition str_of_cell (c : cell) : string :=
  match c with
  | Text s => s
  | Int n => NilEmpty.string_of_int (Z.to_int n)
  | Num x => float_str x
  end.

(** [.astype(str).str.strip()] on one cell.  A missing cell becomes the
    text that [str] gives for NaN, as in pandas before version 3; from
    version 3 on [astype(str)] leaves a missing cell missing.  No
    statement below rests on what a missing name or type becomes. *)
Definition astype_str_strip (c : cell) : cell := Text (Str.strip (str_of_cell c)).

(** [pd.to_numeric(..., errors='coerce')] on one cell. *)
Definition to_numeric (c : cell) : cell :=
  match c with
  | Text s =>
      match to_numeric_text s with
      | Some x => Num x
      | None => Frame.missing
      end
  | _ => c
  end.

Definition _clean_data (df : DataFrame) : DataFrame :=
  let df := Frame.dropna_all df in
  let df := fold_left (fun df col => Frame.map_column col astype_str_strip df)
                      ["Equipment Name"; "Type"] df in
  let df := fold_left (fun df col => Frame.map_column col to_numeric df)
                      ["Flowrate"; "Pressure"; "Temperature"] df in
  df.

Definition _validate_data (df : DataFrame) : M bool :=
  if Frame.empty df then
    add_error "No valid data rows found in the file." ;;
    ret false
  else
    null_counts <-
      found "KeyError"
        (comprehension
           (fun col => option_map (fun cells => (col, Frame.null_count cells))
                                  (Frame.column col df))
           REQUIRED_COLUMNS) ;;
    let null_columns := filter (fun cc => 0 <? snd cc) null_counts in
    for_each
      (fun cc => add_warning ("Column '" ++ fst cc ++ "' has "
                              ++ str_of_nat (snd cc) ++ " missing values.")%string)
      null_columns ;;
    let original_count := List.length (rows df) in
    df_clean <-
      found "KeyError"
        (Frame.dropna_subset ["Flowrate"; "Pressure"; "Temperature"] df) ;;
    let dropped := original_count - List.length (rows df_clean) in
    (if 0 <? dropped then
       add_warning ("Dropped " ++ str_of_nat dropped
                    ++ " rows with missing numeric values.")%string
     else ret tt) ;;
    if Frame.empty df_clean then
      add_error "No valid data rows after cleaning." ;;
      ret false
    else
      for_each
        (fun col =>
           cells <- found "KeyError" (Frame.column col df) ;;
           neg <- found "TypeError" (Frame.any_negative cells) ;;
           if neg then
             add_warning ("Column '" ++ col ++ "' contains negative values.")%string
           else ret tt)
        ["Flowrate"; "Pressure"; "Temperature"] ;;
      ret true.

(** The body of the [try] block. *)
Definition parse_body (file_obj : UploadedFile) : M (DataFrame * bool) :=
  match file_obj with
  | Unreadable msg => raise (Exception msg)
  | Content utf8 read_csv =>
      (if utf8 then ret tt
       else add_warning "File was not UTF-8 encoded, used latin-1 encoding.") ;;
      df <- (match read_csv with
             | inl e => raise e
             | inr df => ret df
             end) ;;
      validated <- _validate_columns df ;;
      let (df, ok) := validated : DataFrame * bool in
      if negb ok then ret (Frame.new, false)
      else
        let df := _clean_data df in
        ok <- _validate_data df ;;
        if negb ok then ret (Frame.new, false)
        else
          let df := Frame.rename COLUMN_MAPPING df in
          ret (df, true)
  end.

(** [parse_file]: both lists are reset, the body runs, and each
    [except] clause turns a raise into an error and a failure. *)
Definition parse_file (file_obj : UploadedFile) (self : parser)
  : (DataFrame * bool) * parser :=
  let self := {| errors := []; warnings := [] |} in
  match parse_body file_obj self with
  | (inr result, self) => (result, self)
  | (inl (EmptyDataError _), self) =>
      ((Frame.new, false),
       {| errors := errors self ++ ["The uploaded file is empty."];
          warnings := warnings self |})
  | (inl (ParserError e), self) =>
      ((Frame.new, false),
       {| errors := errors self ++ [("Failed to parse CSV: " ++ e)%string];
          warnings := warnings self |})
  | (inl (Exception e), self) =>
      ((Frame.new, false),
       {| errors := errors self ++ [("Unexpected error: " ++ e)%string];
          warnings := warnings self |})
  end.

Definition get_errors (self : parser) : list string := errors self.
Definition get_warnings (self : parser) : list string := warnings self.

End Service.

End CSVParserService.

(* ================================================================= *)
(** ** Vocabulary of the statements about the ingestor *)

Module Ingest.

Import CSVParserService.

(** A header matches a canonical column name when it equals it after
    lower-casing and whitespace-trimming. *)
Definition key (header : string) : string := Str.strip (Str.lower header).

Definition matches (header col : string) : bool :=
  String.eqb (key header) (Str.lower col).

(** A required column is absent from a frame when no header matches it. *)
Definition absent (df : DataFrame) (col : string) : bool :=
  negb (existsb (fun header => matches header col) (columns df)).

Definition absent_columns (df : DataFrame) : list string :=
  filter (absent df) REQUIRED_COLUMNS.

(** A header is left as it is or replaced by the canonical name it
    matches. *)
Definition canonical (header header' : string) : Prop :=
  header' = header
  \/ (In header' REQUIRED_COLUMNS /\ matches header header' = true).

(** A row has a value (not missing) in each of the columns of [subset];
    [false] when one of them is no column of the frame. *)
Definition complete (subset : list string) (df : DataFrame) (row : list cell)
  : bool :=
  match Frame.positions subset df with
  | Some ps => Frame.complete_at ps row
  | None => false
  end.

(** The frame [_validate_columns] leaves behind: the headers that match a
    required column carry its canonical name. *)
Definition validated (df : DataFrame) : DataFrame :=
  fst (fold_left check_column REQUIRED_COLUMNS (df, [])).

(** The two messages of [parse_file] that the statements name. *)
Definition missing_columns_error (cols : list string) : string :=
  ("Missing required columns: " ++ Str.join ", " cols)%string.

Definition latin1_warning : string :=
  "File was not UTF-8 encoded, used latin-1 encoding.".

(** The three measurements under their display names (before the final
    renaming) and under their field names (after it). *)
Definition measurements : list string := ["Flowrate"; "Pressure"; "Temperature"].
Definition measurement_fields : list string := ["flowrate"; "pressure"; "temperature"].

(** Readers for the examples: unsigned decimal integers are numbers, and
    the missing value prints as [nan]. *)
Definition decimal_text (s : string) : option float :=
  option_map (fun u => float_of_nat (Nat.of_uint u)) (NilEmpty.uint_of_string s).

Definition nan_str (x : float) : string :=
  if PrimFloat.is_nan x then "nan" else "0.0".

(** The frame of the file
<<
Equipment Name,Type,Flowrate,Pressure,Temperature
P1,Pump,10,1,20
P2,Pump,,2,30
>>
    whose second row has no flowrate. *)
Definition blank_flowrate : DataFrame := {|
  columns := ["Equipment Name"; "Type"; "Flowrate"; "Pressure"; "Temperature"];
  rows := [ [Text "P1"; Text "Pump"; Num 10; Int 1; Int 20];
            [Text "P2"; Text "Pump"; Num PrimFloat.nan; Int 2; Int 30] ]
|}.

(** The frame of a file without a pressure column and with two headers
    in other letter case. *)
Definition no_pressure : DataFrame := {|
  columns := ["equipment name"; "TYPE "; "Flowrate"; "Temperature"];
  rows := [ [Text "P1"; Text "Pump"; Int 10; Int 20] ]
|}.

(** The frame of a file whose headers differ from the canonical names in
    letter case and surrounding whitespace only. *)
Definition header_variants : DataFrame := {|
  columns := ["equipment name"; " TYPE"; "FLOWRATE"; "pressure "; "Temperature"];
  rows := [ [Text "P1"; Text " Pump "; Int 10; Int 1; Int 20] ]
|}.

(** The frame of a file in which no flowrate is a number. *)
Definition no_numeric_flowrate : DataFrame := {|
  columns := ["Equipment Name"; "Type"; "Flowrate"; "Pressure"; "Temperature"];
  rows := [ [Text "P1"; Text "Pump"; Text "high"; Int 1; Int 20];
            [Text "P2"; Text "Valve"; Text "low"; Int 2; Int 30] ]
|}.

End Ingest.

(* ================================================================= *)
(** ** models.py: the Dataset table, and views.py *)

Module Dataset.

(** A row of the table: primary key, name, stored file ([""] when the
    field is empty), owner, creation time and row count. *)
Record t : Type := {
  id : nat;
  name : string;
  file : string;
  uploaded_by : nat;
  uploaded_at : Z;
  row_count : nat
}.

End Dataset.

(** The database rows and the file storage the view works on. *)
Record Store : Type := {
  datasets : list Dataset.t;
  files : list string
}.

Module DatasetViewSet.

(** [Dataset.objects.filter(uploaded_by=user)] *)
Definition filter_uploaded_by (user : nat) (table : list Dataset.t)
  : list Dataset.t :=
  filter (fun d => Dataset.uploaded_by d =? user) table.

(** [.order_by('-uploaded_at')]: newest first. *)
Fixpoint insert_newest_first (d : Dataset.t) (l : list Dataset.t)
  : list Dataset.t :=
  match l with
  | [] => [d]
  | d' :: l' =>
      if (Dataset.uploaded_at d' <=? Dataset.uploaded_at d)%Z
      then d :: d' :: l'
      else d' :: insert_newest_first d l'
  end.

Definition order_by_uploaded_at_desc (l : list Dataset.t) : list Dataset.t :=
  fold_right insert_newest_first [] l.

(** [old_dataset.file.delete(save=False)] *)
Definition file_delete (old_dataset : Dataset.t) (s : Store) : Store :=
  {| datasets := datasets s;
     files := filter (fun f => negb (String.eqb f (Dataset.file old_dataset)))
                     (files s) |}.

(** [old_dataset.delete()]: the row with this primary key goes. *)
Definition delete (old_dataset : Dataset.t) (s : Store) : Store :=
  {| datasets := filter (fun d => negb (Dataset.id d =? Dataset.id old_dataset))
                        (datasets s);
     files := files s |}.

(** The body of the loop over the datasets beyond the limit. *)
Definition remove_old (s : Store) (old_dataset : Dataset.t) : Store :=
  let s := if String.eqb (Dataset.file old_dataset) "" then s
           else file_delete old_dataset s in
  delete old_dataset s.

Definition _enforce_dataset_limit (max_datasets : nat) (user : nat) (s : Store)
  : Store :=
  let user_datasets :=
    order_by_uploaded_at_desc (filter_uploaded_by user (datasets s)) in
  if max_datasets <? List.length user_datasets then
    fold_left remove_old (skipn max_datasets user_datasets) s
  else s.

(** [newer a b]: [b] was uploaded no later than [a]. *)
Definition newer (a b : Dataset.t) : Prop :=
  (Dataset.uploaded_at b <= Dataset.uploaded_at a)%Z.

(** Three uploads of user 7 at times 100, 200 and 300, and one of user 8. *)
Definition upload (id user : nat) (at_ : Z) : Dataset.t := {|
  Dataset.id := id;
  Dataset.name := "data.csv";
  Dataset.file := "uploads/data.csv";
  Dataset.uploaded_by := user;
  Dataset.uploaded_at := at_;
  Dataset.row_count := 1
|}.

Definition four_uploads : Store := {|
  datasets := [upload 1 7 100; upload 2 8 150; upload 3 7 300; upload 4 7 200];
  files := ["uploads/data.csv"]
|}.

End DatasetViewSet.

(* ================================================================= *)
(** ** services/csv_parser.py: the records handed to the view *)

Module Records.

(** [d[k] = v] on an insertion-ordered dict: a present key keeps its
    place and takes the new value. *)
Fixpoint dict_set {V : Type} (k : string) (v : V) (d : list (string * V))
  : list (string * V) :=
  match d with
  | [] => [(k, v)]
  | (k', v') :: d' =>
      if String.eqb k k' then (k, v) :: d' else (k', v') :: dict_set k v d'
  end.

(** [dict(zip(columns, row))] *)
Definition record_of (cols : list string) (row : list cell)
  : list (string * cell) :=
  fold_left (fun d kv => dict_set (fst kv) (snd kv) d) (combine cols row) [].

(** [df.to_dict('records')] *)
Definition to_equipment_dicts (df : DataFrame) : list (list (string * cell)) :=
  map (record_of (columns df)) (rows df).

(** Every row of the frame has one cell per column. *)
Definition rectangular (df : DataFrame) : Prop :=
  Forall (fun row => List.length row = List.length (columns df)) (rows df).

End Records.

(* ================================================================= *)
(** ** services/analytics.py: the summary view *)

Module Summary.

Record range : Type := { min : float; max : float }.

Record per_field (A : Type) : Type := {
  flowrate : A;
  pressure : A;
  temperature : A
}.

Arguments flowrate {A}.
Arguments pressure {A}.
Arguments temperature {A}.

Record t : Type := {
  total_count : nat;
  equipment_types : list string;
  averages : per_field float;
  ranges : per_field range;
  type_distribution : list (string * nat);
  stats_by_type : list (string * TypeStats.t)
}.

End Summary.

Section SummaryResponse.

(** [round(x, 2)] *)
Variable round2 : float -> float.

Definition get_summary_response (analytics : AnalyticsService.analytics)
  : Summary.t := {|
  Summary.total_count := AnalyticsService.total_count analytics;
  Summary.equipment_types := keys (AnalyticsService.type_distribution analytics);
  Summary.averages := {|
    Summary.flowrate := round2 (AnalyticsService.avg_flowrate analytics);
    Summary.pressure := round2 (AnalyticsService.avg_pressure analytics);
    Summary.temperature := round2 (AnalyticsService.avg_temperature analytics) |};
  Summary.ranges := {|
    Summary.flowrate := {|
      Summary.min := round2 (AnalyticsService.min_flowrate analytics);
      Summary.max := round2 (AnalyticsService.max_flowrate analytics) |};
    Summary.pressure := {|
      Summary.min := round2 (AnalyticsService.min_pressure analytics);
      Summary.max := round2 (AnalyticsService.max_pressure analytics) |};
    Summary.temperature := {|
      Summary.min := round2 (AnalyticsService.min_temperature analytics);
      Summary.max := round2 (AnalyticsService.max_temperature analytics) |} |};
  Summary.type_distribution := AnalyticsService.type_distribution analytics;
  Summary.stats_by_type := AnalyticsService.stats_by_type analytics
|}.

End SummaryResponse.

(* ================================================================= *)
(** ** views.py: the dataset endpoints *)

Module DatasetViews.

Import DatasetViewSet.

(** [get_queryset]: the datasets of the user, newest first. *)
Definition get_queryset (user : nat) (s : Store) : list Dataset.t :=
  order_by_uploaded_at_desc (filter_uploaded_by user (datasets s)).

(** [get_object]: the dataset of the queryset with this primary key;
    [None] stands for the 404 response. *)
Definition get_object (user pk : nat) (s : Store) : option Dataset.t :=
  find (fun d => Dataset.id d =? pk) (get_queryset user s).

Inductive status : Type :=
| HTTP_204_NO_CONTENT
| HTTP_404_NOT_FOUND.

(** [destroy]: the file goes, then the row. *)
Definition destroy (user pk : nat) (s : Store) : status * Store :=
  match get_object user pk s with
  | None => (HTTP_404_NOT_FOUND, s)
  | Some instance =>
      let s := if String.eqb (Dataset.file instance) "" then s
               else file_delete instance s in
      (HTTP_204_NO_CONTENT, delete instance s)
  end.

(** [list]: the count and the results of the response. *)
Definition list (user : nat) (s : Store) : nat * list Dataset.t :=
  let queryset := get_queryset user s in
  (List.length queryset, queryset).

End DatasetViews.

(* ================================================================= *)
(** ** desktop/utils/helpers.py *)

Module Helpers.

(** [text[:stop]] for an integer [stop], negative ones counting from the
    end. *)
Definition slice_to (stop : Z) (text : string) : string :=
  let n := Z.of_nat (String.length text) in
  let stop := if (stop <? 0)%Z then Z.max 0 (n + stop) else Z.min stop n in
  String.substring 0 (Z.to_nat stop) text.

Definition truncate_text (text : string) (max_length : Z) (suffix : string)
  : string :=
  if String.eqb text "" || (Z.of_nat (String.length text) <=? max_length)%Z
  then text
  else (slice_to (max_length - Z.of_nat (String.length suffix)) text
        ++ suffix)%string.

End Helpers.

(* ================================================================= *)
(** ** Vocabulary of further statements *)

(** A method that returns from every state of the service. *)
Definition returns {A : Type} (m : CSVParserService.M A) : Prop :=
  forall p, exists a p', m p = (inr a, p').

(** A cell that is a number or the missing value. *)
Definition is_number (c : cell) : bool :=
  match c with
  | Text _ => false
  | Num _ | Int _ => true
  end.

(** A statistic that is the value of the field on some row of the part. *)
Definition attained (v : float) (field : Equipment -> float)
    (part : list Equipment) : Prop :=
  exists r, In r part /\ v = field r.

(** [df[col] = f(df[col])] seen from one row: the cell under [col], if
    there is such a column, is replaced. *)
Definition update_cell (cols : list string) (col : string) (f : cell -> cell)
    (row : list cell) : list cell :=
  match Frame.position col cols with
  | Some i => Frame.update_at i f row
  | None => row
  end.

(** The rows [_clean_data] keeps: those with some value. *)
Definition has_value (row : list cell) : bool := negb (forallb Frame.isnull row).

(** The names of the columns that [_clean_data] rewrites. *)
Definition cleaned_columns : list string :=
  ["Equipment Name"; "Type"; "Flowrate"; "Pressure"; "Temperature"].

(** The field names the view reads from a record. *)
Definition record_fields : list string :=
  ["name"; "type"; "flowrate"; "pressure"; "temperature"].

(** What [_clean_data] does to one row it keeps, given the readers of
    numbers and floats and the column labels. *)
Definition clean_row (to_numeric_text : string -> option float)
    (float_str : float -> string) (cols : list string) (row : list cell)
  : list cell :=
  let strip := CSVParserService.astype_str_strip float_str in
  let num := CSVParserService.to_numeric to_numeric_text in
  update_cell cols "Temperature" num
    (update_cell cols "Pressure" num
       (update_cell cols "Flowrate" num
          (update_cell cols "Type" strip
             (update_cell cols "Equipment Name" strip row)))).

(** The cells of a column, none when there is no such column. *)
Definition cells_of (col : string) (df : DataFrame) : list cell :=
  match Frame.column col df with
  | Some cells => cells
  | None => []
  end.

(** The warnings of [_validate_data] on a frame, in the order it appends
    them: the missing values of each required column that has some, the
    rows without one of the three measurements, and each measurement
    column with a value below zero. *)
Definition missing_values_warning (col : string) (count : nat) : string :=
  ("Column '" ++ col ++ "' has " ++ str_of_nat count ++ " missing values.")%string.

Definition dropped_rows_warning (dropped : nat) : string :=
  ("Dropped " ++ str_of_nat dropped ++ " rows with missing numeric values.")%string.

Definition negative_values_warning (col : string) : string :=
  ("Column '" ++ col ++ "' contains negative values.")%string.

Definition is_negative (c : cell) : bool :=
  match c with
  | Num x => (x <? 0)%float
  | Int n => (n <? 0)%Z
  | Text _ => false
  end.

Definition incomplete_rows (df : DataFrame) : nat :=
  List.length (filter (fun row => negb (Ingest.complete Ingest.measurements df row))
                      (rows df)).

Definition data_warnings (df : DataFrame) : list string :=
  map (fun col => missing_values_warning col (Frame.null_count (cells_of col df)))
      (filter (fun col => 0 <? Frame.null_count (cells_of col df))
              CSVParserService.REQUIRED_COLUMNS)
  ++ (if 0 <? incomplete_rows df
      then [dropped_rows_warning (incomplete_rows df)] else [])
  ++ map negative_values_warning
         (filter (fun col => existsb is_negative (cells_of col df))
                 Ingest.measurements).

(** The service with further warnings appended. *)
Definition warned (p : CSVParserService.parser) (ws : list string)
  : CSVParserService.parser :=
  {| CSVParserService.errors := CSVParserService.errors p;
     CSVParserService.warnings := CSVParserService.warnings p ++ ws |}.

(* ================================================================= *)
(** * Properties *)

(** ** The order of binary64 values

    Comparisons of primitive floats are read through their
    specification on [spec_float]. *)

Section Binary64Order.

Local Open Scope float_scope.

Lemma SFcompare_refl (f : spec_float) :
  f <> S754_nan -> SFcompare f f = Some Eq.
Proof.
  destruct f as [s| s | |s m e]; simpl; intros H; try congruence.
  - now destruct s.
  - rewrite Z.compare_refl, Pos.compare_cont_refl. now destruct s.
Qed.

Lemma SFeqb_self_nan (f : spec_float) : SFeqb f f = true -> f <> S754_nan.
Proof. intros H ->. discriminate H. Qed.

Lemma SFleb_trans (a b c : spec_float) :
  SFleb a b = true -> SFleb b c = true -> SFleb a c = true.
Proof.
  unfold SFleb.
  destruct a as [sa|sa| |sa ma ea], b as [sb|sb| |sb mb eb], c as [sc|sc| |sc mc ec];
    simpl; try discriminate; try reflexivity;
    try (destruct sa; simpl; try discriminate; try reflexivity);
    try (destruct sb; simpl; try discriminate; try reflexivity);
    try (destruct sc; simpl; try discriminate; try reflexivity).
  all: rewrite !Pos.compare_cont_spec; simpl.
  all: destruct (Z.compare_spec ea eb), (Z.compare_spec eb ec), (Z.compare_spec ea ec);
      try lia; try discriminate; try reflexivity; subst.
  all: destruct (Pos.compare_spec ma mb), (Pos.compare_spec mb mc), (Pos.compare_spec ma mc);
      simpl; try lia; try discriminate; try reflexivity.
Qed.

Lemma SFltb_leb (a b : spec_float) : SFltb a b = true -> SFleb a b = true.
Proof. unfold SFltb, SFleb. now destruct (SFcompare a b) as [[ | | ]|]. Qed.

Lemma SFcompare_opp (a b : spec_float) :
  SFcompare b a = option_map CompOpp (SFcompare a b).
Proof.
  destruct a as [sa|sa| |sa ma ea], b as [sb|sb| |sb mb eb];
    simpl; try reflexivity;
    try (destruct sa; simpl; try reflexivity);
    try (destruct sb; simpl; try reflexivity).
  all: rewrite (Z.compare_antisym ea eb), !Pos.compare_cont_spec, (Pos.compare_antisym ma mb); simpl.
  all: destruct (ea ?= eb)%Z; simpl; try reflexivity.
  all: destruct (ma ?= mb)%positive; reflexivity.
Qed.

Lemma SFnltb_leb (a b : spec_float) :
  a <> S754_nan -> b <> S754_nan -> SFltb a b = false -> SFleb b a = true.
Proof.
  unfold SFltb, SFleb; intros Ha Hb. rewrite (SFcompare_opp a b).
  destruct (SFcompare a b) as [[ | | ]|] eqn:E; simpl; try easy.
  destruct a, b; simpl in E; congruence.
Qed.

Lemma is_nan_false (x : float) :
  PrimFloat.is_nan x = false -> Prim2SF x <> S754_nan.
Proof.
  unfold PrimFloat.is_nan. rewrite eqb_spec. intros H.
  apply SFeqb_self_nan. now destruct (SFeqb _ _).
Qed.

Lemma leb_refl (x : float) : PrimFloat.is_nan x = false -> (x <=? x) = true.
Proof.
  intros H. rewrite leb_spec. unfold SFleb.
  now rewrite (SFcompare_refl _ (is_nan_false _ H)).
Qed.

Lemma leb_trans (x y z : float) :
  (x <=? y) = true -> (y <=? z) = true -> (x <=? z) = true.
Proof. rewrite !leb_spec. apply SFleb_trans. Qed.

Lemma ltb_leb (x y : float) : (x <? y) = true -> (x <=? y) = true.
Proof. rewrite ltb_spec, leb_spec. apply SFltb_leb. Qed.

Lemma nltb_leb (x y : float) :
  PrimFloat.is_nan x = false -> PrimFloat.is_nan y = false ->
  (x <? y) = false -> (y <=? x) = true.
Proof.
  intros Hx Hy. rewrite ltb_spec, leb_spec.
  apply SFnltb_leb; now apply is_nan_false.
Qed.

End Binary64Order.

(* ================================================================= *)
(** ** Dicts and pandas series *)

Section Dicts.

Context {V : Type}.

Lemma lookup_In (k : string) (v : V) (d : list (string * V)) :
  NoDup (keys d) -> In (k, v) d -> lookup k d = Some v.
Proof.
  induction d as [|[k' v'] d IH]; simpl; intros Hnd Hin; [easy|].
  inversion Hnd as [|? ? Hk Hd]; subst.
  destruct Hin as [Heq | Hin].
  - inversion Heq; subst. now rewrite String.eqb_refl.
  - destruct (String.eqb_spec k k') as [-> | _]; [|now apply IH].
    exfalso. apply Hk. change k' with (fst (k', v)). now apply in_map.
Qed.

Lemma lookup_map (f : string -> V) (k : string) (l : list string) :
  In k l -> lookup k (map (fun t => (t, f t)) l) = Some (f k).
Proof.
  induction l as [|x l IH]; simpl; [easy|].
  destruct (String.eqb_spec k x) as [-> | Hne]; [easy|].
  intros [-> | Hin]; [easy | now apply IH].
Qed.

Lemma lookup_map_Some (f : string -> V) (k : string) (v : V) (l : list string) :
  lookup k (map (fun t => (t, f t)) l) = Some v -> In k l /\ v = f k.
Proof.
  induction l as [|x l IH]; simpl; [easy|].
  destruct (String.eqb_spec k x) as [-> | Hne].
  - intros [= <-]. auto.
  - intros H. destruct (IH H). auto.
Qed.

Lemma keys_map (f : string -> V) (l : list string) :
  keys (map (fun t => (t, f t)) l) = l.
Proof.
  unfold keys. rewrite map_map. simpl. apply map_id.
Qed.

Lemma comprehension_keys {B : Type} (g : V -> B) (d : list (string * V)) (l : list string) :
  incl l (keys d) ->
  exists bs, comprehension (fun t => option_map g (lookup t d)) l = Some bs
             /\ List.length bs = List.length l.
Proof.
  induction l as [|x l IH]; simpl; intros Hincl.
  - now exists [].
  - destruct IH as (bs & -> & Hlen).
    { intros y Hy. apply Hincl. now right. }
    assert (Hx : In x (keys d)) by (apply Hincl; now left).
    assert (exists v, lookup x d = Some v) as [v ->].
    { clear -Hx. induction d as [|[k' v'] d IH]; simpl in *; [easy|].
      destruct (String.eqb_spec x k'); [eauto|].
      destruct Hx as [<- | Hx]; [easy | now apply IH]. }
    simpl. exists (g v :: bs). simpl. auto.
Qed.

End Dicts.

Lemma comprehension_total {A B : Type} (f : A -> B) (l : list A) :
  comprehension (fun a => Some (f a)) l = Some (map f l).
Proof. induction l as [|a l IH]; simpl; [easy | now rewrite IH]. Qed.

Lemma comprehension_ext {A B : Type} (f g : A -> option B) (l : list A) :
  (forall a, In a l -> f a = g a) -> comprehension f l = comprehension g l.
Proof.
  induction l as [|a l IH]; simpl; intros H; [easy|].
  rewrite (H a) by now left. rewrite IH; [easy|]. intros; apply H; now right.
Qed.

Section SeriesFacts.

Import Series.

Lemma unique_In (x : string) (l : list string) : In x (unique l) <-> In x l.
Proof.
  induction l as [|y l IH]; simpl; [easy|].
  rewrite filter_In, IH.
  destruct (String.eqb_spec x y) as [-> | Hne]; simpl; [tauto|].
  split; [tauto|]. intros [-> | H]; [easy | auto].
Qed.

Lemma unique_NoDup (l : list string) : NoDup (unique l).
Proof.
  induction l as [|y l IH]; simpl; constructor.
  - rewrite filter_In, String.eqb_refl. simpl. easy.
  - now apply NoDup_filter.
Qed.

Lemma insert_desc_perm (p : string * nat) (l : list (string * nat)) :
  Permutation (insert_desc p l) (p :: l).
Proof.
  induction l as [|q l IH]; simpl; [easy|].
  destruct (snd q <=? snd p); [easy|].
  rewrite IH. apply perm_swap.
Qed.

Lemma sort_values_desc_perm (l : list (string * nat)) :
  Permutation (sort_values_desc l) l.
Proof.
  induction l as [|p l IH]; simpl; [easy|].
  rewrite insert_desc_perm. now constructor.
Qed.

Lemma insert_desc_sorted (p : string * nat) (l : list (string * nat)) :
  StronglySorted (fun a b => snd b <= snd a) l ->
  StronglySorted (fun a b => snd b <= snd a) (insert_desc p l).
Proof.
  induction 1 as [|q l Hl IH Hall]; simpl.
  - repeat constructor.
  - destruct (Nat.leb_spec (snd q) (snd p)) as [Hle | Hgt].
    + constructor; [now constructor|]. constructor; [easy|].
      eapply Forall_impl; [|exact Hall]. simpl. intros; lia.
    + constructor; [easy|].
      eapply Permutation_Forall; [symmetry; apply insert_desc_perm|].
      constructor; [lia | easy].
Qed.

Lemma sort_values_desc_sorted (l : list (string * nat)) :
  StronglySorted (fun a b => snd b <= snd a) (sort_values_desc l).
Proof.
  induction l as [|p l IH]; simpl; [constructor|].
  now apply insert_desc_sorted.
Qed.

Lemma value_counts_sorted (l : list string) :
  StronglySorted ge (values (value_counts l)).
Proof.
  unfold value_counts, values.
  induction (sort_values_desc_sorted (map (fun t => (t, count_of t l)) (unique l)))
    as [|a d Hd IH Hall]; simpl; constructor; [easy|].
  apply Forall_map. exact Hall.
Qed.

Lemma value_counts_perm (l : list string) :
  Permutation (value_counts l) (map (fun t => (t, count_of t l)) (unique l)).
Proof. apply sort_values_desc_perm. Qed.

Lemma value_counts_keys (l : list string) :
  Permutation (keys (value_counts l)) (unique l).
Proof.
  unfold keys. rewrite (Permutation_map fst (value_counts_perm l)).
  fold (keys (map (fun t => (t, count_of t l)) (unique l))).
  now rewrite keys_map.
Qed.

Lemma value_counts_lookup (l : list string) (t : string) :
  In t l -> lookup t (value_counts l) = Some (count_of t l).
Proof.
  intros Hin. apply lookup_In.
  - eapply Permutation_NoDup; [symmetry; apply value_counts_keys|].
    apply unique_NoDup.
  - eapply Permutation_in; [symmetry; apply value_counts_perm|].
    apply in_map_iff. exists t. split; [easy|]. now apply unique_In.
Qed.

Lemma value_counts_values (l : list string) :
  values (value_counts l) = map (fun t => count_of t l) (keys (value_counts l)).
Proof.
  unfold values, keys. rewrite map_map. apply map_ext_in.
  intros [t n] Hin. simpl.
  apply (Permutation_in _ (value_counts_perm l)) in Hin.
  apply in_map_iff in Hin. destruct Hin as (t' & [= <- <-] & _). easy.
Qed.

(** Counting every distinct value once covers the whole series. *)
Lemma count_of_cons (t x : string) (l : list string) :
  count_of t (x :: l) = (if String.eqb t x then 1 else 0) + count_of t l.
Proof. unfold count_of. simpl. now destruct (String.eqb t x). Qed.

Lemma count_of_notin (t : string) (l : list string) :
  ~ In t l -> count_of t l = 0.
Proof.
  induction l as [|x l IH]; [easy|]. intros H. rewrite count_of_cons, IH.
  - destruct (String.eqb_spec t x) as [-> | _]; [|easy]. exfalso. apply H. now left.
  - intros Hin. apply H. now right.
Qed.

Lemma list_sum_split (f : string -> nat) (x : string) (u : list string) :
  NoDup u ->
  list_sum (map f u) =
  (if existsb (String.eqb x) u then f x else 0)
  + list_sum (map f (filter (fun y => negb (String.eqb y x)) u)).
Proof.
  induction u as [|y u IH]; intros Hnd; [easy|].
  inversion Hnd as [|? ? Hy Hu]; subst. specialize (IH Hu).
  cbn [map filter existsb]. change (list_sum (f y :: map f u)) with (f y + list_sum (map f u)).
  destruct (String.eqb_spec y x) as [Heq | Hne]; cbn [negb].
  - subst y. rewrite String.eqb_refl. cbn [orb].
    destruct (existsb (String.eqb x) u) eqn:E; [|lia].
    exfalso. apply Hy. apply existsb_exists in E.
    destruct E as (z & Hz & Hxz). apply String.eqb_eq in Hxz. now subst z.
  - destruct (String.eqb_spec x y) as [Heq | _]; [now subst|]. cbn [orb map].
    match goal with |- context [list_sum (f y :: ?l)] =>
      change (list_sum (f y :: l)) with (f y + list_sum l) end.
    lia.
Qed.

Lemma unique_counts_total (l : list string) :
  list_sum (map (fun t => count_of t l) (unique l)) = List.length l.
Proof.
  induction l as [|x l IH]; [easy|].
  cbn [unique map List.length].
  match goal with |- list_sum (?a :: ?m) = _ =>
    change (list_sum (a :: m)) with (a + list_sum m) end.
  rewrite count_of_cons, String.eqb_refl.
  rewrite (map_ext_in (fun t => count_of t (x :: l)) (fun t => count_of t l)).
  - rewrite (list_sum_split (fun t => count_of t l) x (unique l) (unique_NoDup l)) in IH.
    destruct (existsb (String.eqb x) (unique l)) eqn:E; [lia|].
    rewrite count_of_notin; [lia|]. rewrite <- unique_In. intros Hin.
    assert (existsb (String.eqb x) (unique l) = true); [|congruence].
    apply existsb_exists. exists x. split; [easy | apply String.eqb_refl].
  - intros t Ht. apply filter_In in Ht. destruct Ht as [_ Ht].
    rewrite count_of_cons. now destruct (String.eqb t x).
Qed.

Lemma value_counts_total (l : list string) :
  list_sum (values (value_counts l)) = List.length l.
Proof.
  unfold values.
  rewrite (Permutation_list_sum (Permutation_map snd (value_counts_perm l))) by idtac.
  rewrite map_map. simpl. apply unique_counts_total.
Qed.

End SeriesFacts.

(* ================================================================= *)
(** ** Minimum and maximum of a series *)

Section SeriesBounds.

Import Series.
Local Open Scope float_scope.

Lemma dropna_In (x : float) (xs : list float) :
  In x (dropna xs) <-> In x xs /\ PrimFloat.is_nan x = false.
Proof.
  unfold dropna. rewrite filter_In. now destruct (PrimFloat.is_nan x).
Qed.

Lemma dropna_numbers (xs : list float) :
  Forall (fun x => PrimFloat.is_nan x = false) (dropna xs).
Proof. apply Forall_forall. intros x Hx. now apply dropna_In in Hx. Qed.


Lemma fmin_cases (a x : float) : fmin a x = a \/ fmin a x = x.
Proof. unfold fmin. destruct (a <? x); auto. Qed.

Lemma fmax_cases (a x : float) : fmax a x = a \/ fmax a x = x.
Proof. unfold fmax. destruct (x <? a); auto. Qed.

Lemma fmin_le (a x : float) :
  PrimFloat.is_nan a = false -> PrimFloat.is_nan x = false ->
  (fmin a x <=? a) = true /\ (fmin a x <=? x) = true.
Proof.
  intros Ha Hx. unfold fmin. destruct (a <? x) eqn:E.
  - split; [now apply leb_refl | now apply ltb_leb].
  - split; [now apply nltb_leb | now apply leb_refl].
Qed.

Lemma fmax_ge (a x : float) :
  PrimFloat.is_nan a = false -> PrimFloat.is_nan x = false ->
  (a <=? fmax a x) = true /\ (x <=? fmax a x) = true.
Proof.
  intros Ha Hx. unfold fmax. destruct (x <? a) eqn:E.
  - split; [now apply leb_refl | now apply ltb_leb].
  - split; [now apply nltb_leb | now apply leb_refl].
Qed.

Lemma fold_fmin_le (tl : list float) :
  forall a, PrimFloat.is_nan a = false ->
  Forall (fun x => PrimFloat.is_nan x = false) tl ->
  PrimFloat.is_nan (fold_left fmin tl a) = false
  /\ (fold_left fmin tl a <=? a) = true
  /\ Forall (fun y => (fold_left fmin tl a <=? y) = true) tl.
Proof.
  induction tl as [|y tl IH]; simpl; intros a Ha Htl.
  - repeat split; [easy | now apply leb_refl | constructor].
  - inversion Htl as [|? ? Hy Htl']; subst.
    destruct (fmin_le a y Ha Hy) as [H1 H2].
    assert (Hm : PrimFloat.is_nan (fmin a y) = false)
      by (destruct (fmin_cases a y) as [-> | ->]; easy).
    destruct (IH _ Hm Htl') as (Hn & Hle & Hall).
    repeat split; [easy | eapply leb_trans; eauto |].
    constructor; [eapply leb_trans; eauto | easy].
Qed.

Lemma fold_fmax_ge (tl : list float) :
  forall a, PrimFloat.is_nan a = false ->
  Forall (fun x => PrimFloat.is_nan x = false) tl ->
  PrimFloat.is_nan (fold_left fmax tl a) = false
  /\ (a <=? fold_left fmax tl a) = true
  /\ Forall (fun y => (y <=? fold_left fmax tl a) = true) tl.
Proof.
  induction tl as [|y tl IH]; simpl; intros a Ha Htl.
  - repeat split; [easy | now apply leb_refl | constructor].
  - inversion Htl as [|? ? Hy Htl']; subst.
    destruct (fmax_ge a y Ha Hy) as [H1 H2].
    assert (Hm : PrimFloat.is_nan (fmax a y) = false)
      by (destruct (fmax_cases a y) as [-> | ->]; easy).
    destruct (IH _ Hm Htl') as (Hn & Hle & Hall).
    repeat split; [easy | eapply leb_trans; eauto |].
    constructor; [eapply leb_trans; eauto | easy].
Qed.

(** Every present value of a series lies between its minimum and its
    maximum. *)
Lemma min_max_between (xs : list float) (x : float) :
  In x xs -> PrimFloat.is_nan x = false -> between (min xs) x (max xs).
Proof.
  intros Hin Hx. assert (Hd : In x (dropna xs)) by now apply dropna_In.
  pose proof (dropna_numbers xs) as Hnum.
  unfold between, min, max. destruct (dropna xs) as [|a tl]; [easy|].
  inversion Hnum as [|? ? Ha Htl]; subst.
  destruct (fold_fmin_le tl a Ha Htl) as (_ & Hlo & Hlos).
  destruct (fold_fmax_ge tl a Ha Htl) as (_ & Hhi & Hhis).
  rewrite Forall_forall in Hlos, Hhis.
  assert (H1 : (fold_left fmin tl a <=? x) = true)
    by (destruct Hd as [<- | Hd]; auto).
  assert (H2 : (x <=? fold_left fmax tl a) = true)
    by (destruct Hd as [<- | Hd]; auto).
  repeat split; [easy | easy | eapply leb_trans; eauto].
Qed.



(** The cut of a long array leaves two shorter, non-empty parts. *)
Lemma pairwise_cut (n : nat) :
  PW_BLOCKSIZE < n ->
  let n2 := (n / 2 - (n / 2) mod 8)%nat in 0 < n2 /\ n2 < n.
Proof.
  unfold PW_BLOCKSIZE. intros Hn. cbv zeta.
  pose proof (Nat.mod_upper_bound (n / 2) 8 ltac:(lia)) as Hm.
  pose proof (Nat.div_mod_eq n 2) as Hd.
  pose proof (Nat.mod_upper_bound n 2 ltac:(lia)) as Hr.
  lia.
Qed.

(** The length of the array is fuel enough: the sum is the same with any
    larger amount. *)
Lemma pairwise_sum_fuel (fuel : nat) :
  forall fuel' xs,
  List.length xs <= fuel -> List.length xs <= fuel' ->
  pairwise_sum fuel xs = pairwise_sum fuel' xs.
Proof.
  induction fuel as [|fuel IH]; intros fuel' xs H H'.
  - destruct xs; [|simpl in H; lia]. now destruct fuel'.
  - destruct fuel' as [|fuel'].
    + destruct xs; [easy | simpl in H'; lia].
    + cbn [pairwise_sum].
      destruct (Nat.leb_spec (List.length xs) PW_BLOCKSIZE) as [_ | Hn]; [easy|].
      destruct (pairwise_cut _ Hn) as [H0 Hlt].
      f_equal; apply IH;
        rewrite ?length_firstn, ?length_skipn; lia.
Qed.

(** Up to 128 values are summed by [block_sum]. *)
Lemma add_reduce_block (x : float) (xs : list float) :
  List.length (x :: xs) <= PW_BLOCKSIZE ->
  add_reduce (x :: xs) = PrimFloat.neg_zero + block_sum (x :: xs).
Proof.
  intros H. unfold add_reduce.
  change (List.length (x :: xs)) with (S (List.length xs)) in *.
  cbn [pairwise_sum].
  change (List.length (x :: xs)) with (S (List.length xs)).
  now destruct (Nat.leb_spec (S (List.length xs)) PW_BLOCKSIZE) as [_ | Hn]; [|lia].
Qed.

(** Longer arrays are cut in two. *)
Lemma add_reduce_cut (xs : list float) :
  PW_BLOCKSIZE < List.length xs ->
  let n := List.length xs in
  let n2 := (n / 2 - (n / 2) mod 8)%nat in
  add_reduce xs
  = PrimFloat.neg_zero
    + (pairwise_sum n2 (firstn n2 xs) + pairwise_sum (n - n2) (skipn n2 xs)).
Proof.
  intros Hn. cbv zeta.
  assert (Hsum : pairwise_sum (List.length xs) xs
    = pairwise_sum (List.length xs / 2 - (List.length xs / 2) mod 8)
        (firstn (List.length xs / 2 - (List.length xs / 2) mod 8) xs)
      + pairwise_sum
          (List.length xs - (List.length xs / 2 - (List.length xs / 2) mod 8))
          (skipn (List.length xs / 2 - (List.length xs / 2) mod 8) xs)).
  { destruct (pairwise_cut _ Hn) as [H0 Hlt].
    remember (List.length xs) as n eqn:En.
    destruct n as [|m]; [lia|]. cbn [pairwise_sum]. rewrite <- En.
    destruct (Nat.leb_spec (S m) PW_BLOCKSIZE) as [Hle | _]; [lia|].
    f_equal; apply pairwise_sum_fuel;
      rewrite ?length_firstn, ?length_skipn, <- ?En; lia. }
  unfold add_reduce. destruct xs as [|x xs]; [simpl in Hn; lia|].
  now rewrite Hsum.
Qed.


End SeriesBounds.

(* ================================================================= *)
(** ** The analytics aggregator *)

Section Aggregator.

Import AnalyticsService.

Lemma compute_analytics_total_count (df : list Equipment) :
  total_count (compute_analytics df) = List.length df.
Proof. now destruct df. Qed.

Lemma compute_analytics_type_distribution (df : list Equipment) :
  type_distribution (compute_analytics df) = _compute_type_distribution df.
Proof. now destruct df. Qed.

Lemma compute_analytics_stats_by_type (df : list Equipment) :
  stats_by_type (compute_analytics df) = _compute_stats_by_type df.
Proof. now destruct df. Qed.

Lemma stats_by_type_keys (df : list Equipment) :
  keys (_compute_stats_by_type df) = Series.unique (map type df).
Proof.
  unfold _compute_stats_by_type.
  apply (keys_map (fun t => snd (type_entry df t))).
Qed.

Lemma stats_by_type_lookup (df : list Equipment) (t : string) :
  In t (map type df) ->
  lookup t (_compute_stats_by_type df) = Some (snd (type_entry df t)).
Proof.
  intros Hin. unfold _compute_stats_by_type.
  apply (lookup_map (fun t => snd (type_entry df t))).
  now apply unique_In.
Qed.

Lemma stats_by_type_lookup_Some (df : list Equipment) (t : string) (s : TypeStats.t) :
  lookup t (_compute_stats_by_type df) = Some s ->
  In t (map type df) /\ s = snd (type_entry df t).
Proof.
  intros H. unfold _compute_stats_by_type in H.
  apply (lookup_map_Some (fun t => snd (type_entry df t))) in H.
  now rewrite unique_In in H.
Qed.

Lemma rows_of_type_In (r : Equipment) (df : list Equipment) :
  In r df -> In r (rows_of_type (type r) df).
Proof.
  intros H. unfold rows_of_type. apply filter_In. split; [easy|].
  apply String.eqb_refl.
Qed.

Lemma rows_of_type_count (t : string) (df : list Equipment) :
  List.length (rows_of_type t df) = Series.count_of t (map type df).
Proof.
  unfold rows_of_type, Series.count_of.
  induction df as [|r df IH]; [easy|]. simpl.
  rewrite (String.eqb_sym t (type r)).
  destruct (String.eqb (type r) t); simpl; now rewrite IH.
Qed.


Lemma averages_by_type
    (field : TypeStats.t -> FieldStats.t) (df : list Equipment) :
  averages field (_compute_stats_by_type df) (Series.unique (map type df))
  = Some (map (fun t => FieldStats.avg (field (snd (type_entry df t))))
              (Series.unique (map type df))).
Proof.
  unfold averages. rewrite <- comprehension_total.
  apply comprehension_ext. intros t Ht.
  rewrite stats_by_type_lookup; [easy | now apply unique_In].
Qed.



(** C5.  The aggregator maps the empty row collection to the canonical
    empty snapshot: [total_count] is 0, each of the twelve float
    statistics (avg, min, max and std of flowrate, pressure and
    temperature) is exactly 0.0 -- thirteen numeric fields with
    [total_count] -- and both mappings are empty. *)
Theorem compute_analytics_empty :
  compute_analytics [] = _empty_analytics
  /\ total_count (compute_analytics []) = 0
  /\ List.length (statistics (compute_analytics [])) = 12
  /\ Forall (fun x => x = 0%float) (statistics (compute_analytics []))
  /\ type_distribution (compute_analytics []) = []
  /\ stats_by_type (compute_analytics []) = [].
Proof.
  repeat split. simpl. repeat constructor.
Qed.


Lemma three_tenths_numeric : Forall numeric three_tenths.
Proof. repeat constructor. Qed.


(** Ten values of 0.1 add up to 1.0 through the eight accumulators
    (0.8, then 0.9, then 1.0), so their mean is 0.1 and every deviation
    from it is 0.0; added left to right they would give
    0.9999999999999999. *)
Lemma ten_tenths_statistics :
  avg_flowrate (compute_analytics ten_tenths) = tenth
  /\ std_flowrate (compute_analytics ten_tenths) = 0%float
  /\ fold_left PrimFloat.add (map flowrate ten_tenths) 0%float
     = 0x1.fffffffffffffp-1%float.
Proof. vm_compute. repeat split. Qed.


(** C7.  In every snapshot the counts of the type distribution add up
    to [total_count], and the chart view keeps this: [get_chart_data]
    returns a payload whose pie data sum to [total_count]. *)
Theorem type_distribution_sums_to_total (df : list Equipment) :
  let a := compute_analytics df in
  list_sum (values (type_distribution a)) = total_count a
  /\ exists c, get_chart_data a = Some c
               /\ list_sum (Pie.data (pie_chart c)) = total_count a.
Proof.
  intros a. subst a.
  assert (Hsum : list_sum (values (type_distribution (compute_analytics df)))
                 = total_count (compute_analytics df)).
  { rewrite compute_analytics_type_distribution, compute_analytics_total_count.
    unfold _compute_type_distribution.
    rewrite value_counts_total.
    apply length_map. }
  split; [exact Hsum|].
  unfold get_chart_data.
  rewrite compute_analytics_stats_by_type, stats_by_type_keys.
  rewrite !averages_by_type. eexists. split; [reflexivity|]. exact Hsum.
Qed.

(** C8 (as the code has it).  For every row whose measurements are
    present, each measurement lies between the snapshot's minimum and
    maximum of that field, so that min <= max: over all rows for the
    global fields, and over the rows of the row's type for the entry of
    that type in [stats_by_type].  The averages are binary64 quotients
    of a rounded sum and carry no such bound. *)
Theorem min_max_bound_every_row (df : list Equipment) (r : Equipment) :
  In r df -> numeric r ->
  let a := compute_analytics df in
  between (min_flowrate a) (flowrate r) (max_flowrate a)
  /\ between (min_pressure a) (pressure r) (max_pressure a)
  /\ between (min_temperature a) (temperature r) (max_temperature a)
  /\ exists s, lookup (type r) (stats_by_type a) = Some s
     /\ between (FieldStats.min (TypeStats.flowrate s)) (flowrate r)
                (FieldStats.max (TypeStats.flowrate s))
     /\ between (FieldStats.min (TypeStats.pressure s)) (pressure r)
                (FieldStats.max (TypeStats.pressure s))
     /\ between (FieldStats.min (TypeStats.temperature s)) (temperature r)
                (FieldStats.max (TypeStats.temperature s)).
Proof.
  intros Hin (Hf & Hp & Ht) a. subst a.
  rewrite compute_analytics_stats_by_type.
  split; [|split; [|split]].
  4:{ exists (snd (type_entry df (type r))).
      split; [apply stats_by_type_lookup; now apply in_map|].
      pose proof (rows_of_type_In r df Hin) as Hpart.
      cbn [type_entry snd TypeStats.flowrate TypeStats.pressure
           TypeStats.temperature field_stats FieldStats.min FieldStats.max].
      refine (conj _ (conj _ _)); apply min_max_between; try easy;
        now apply in_map. }
  all: destruct df as [|r0 df]; [easy|].
  all: cbn [compute_analytics min_flowrate max_flowrate min_pressure
            max_pressure min_temperature max_temperature].
  all: apply min_max_between; [now apply in_map | easy].
Qed.

Lemma min_max_bound_every_row_witness :
  In pump_10 valve_then_pumps /\ numeric pump_10
  /\ between (min_flowrate (compute_analytics valve_then_pumps))
             (flowrate pump_10)
             (max_flowrate (compute_analytics valve_then_pumps)).
Proof.
  assert (Hin : In pump_10 valve_then_pumps) by (right; left; reflexivity).
  assert (Hnum : numeric pump_10) by (repeat split).
  split; [exact Hin|]. split; [exact Hnum|].
  exact (proj1 (min_max_bound_every_row valve_then_pumps pump_10 Hin Hnum)).
Defined.

(** C8 fails as stated: three rows measuring 0.1 have the average
    0.10000000000000002, above the maximum 0.1, both globally and in the
    entry of their type. *)
Lemma avg_above_max :
  three_tenths <> [] /\ Forall numeric three_tenths
  /\ (avg_flowrate (compute_analytics three_tenths)
      <=? max_flowrate (compute_analytics three_tenths))%float = false
  /\ option_map
       (fun s => (FieldStats.avg (TypeStats.flowrate s)
                  <=? FieldStats.max (TypeStats.flowrate s))%float)
       (lookup "Pump" (stats_by_type (compute_analytics three_tenths)))
     = Some false.
Proof.
  split; [discriminate|]. split; [exact three_tenths_numeric|].
  split; vm_compute; reflexivity.
Qed.

(** C10.  The two mappings of a snapshot have the same type keys, each
    once, and the entry of a type in [stats_by_type] carries a count
    equal to the value of that type in [type_distribution]. *)
Theorem stats_by_type_matches_distribution (df : list Equipment) :
  let a := compute_analytics df in
  Permutation (keys (stats_by_type a)) (keys (type_distribution a))
  /\ NoDup (keys (stats_by_type a))
  /\ (forall t, In t (keys (stats_by_type a)) <-> In t (map type df))
  /\ (forall t s, lookup t (stats_by_type a) = Some s ->
        lookup t (type_distribution a) = Some (TypeStats.count s)).
Proof.
  intros a. subst a.
  rewrite compute_analytics_stats_by_type, compute_analytics_type_distribution.
  rewrite stats_by_type_keys. unfold _compute_type_distribution.
  split; [symmetry; apply value_counts_keys|].
  split; [apply unique_NoDup|].
  split; [intros t; apply unique_In|].
  intros t s Hs. apply stats_by_type_lookup_Some in Hs. destruct Hs as [Hin ->].
  rewrite value_counts_lookup by easy.
  cbn [type_entry snd TypeStats.count]. now rewrite rows_of_type_count.
Qed.

(** C2 (as the code has it).  [get_chart_data] returns a payload for
    every computed snapshot.  Its pie labels and its bar labels hold the
    same type names, each once; the bar labels are in order of first
    appearance in the rows and every bar series lists the per-type
    averages in the order of the bar labels, while the pie data list the
    per-type counts in the order of the pie labels, which is the order
    of [value_counts]: most frequent first. *)
Theorem chart_labels_same_types (df : list Equipment) :
  exists c, get_chart_data (compute_analytics df) = Some c
  /\ Permutation (Pie.labels (pie_chart c)) (Bar.labels (bar_chart c))
  /\ NoDup (Bar.labels (bar_chart c))
  /\ Bar.labels (bar_chart c) = Series.unique (map type df)
  /\ Pie.labels (pie_chart c) = keys (Series.value_counts (map type df))
  /\ Pie.data (pie_chart c)
     = map (fun t => List.length (rows_of_type t df)) (Pie.labels (pie_chart c))
  /\ StronglySorted ge (Pie.data (pie_chart c))
  /\ map Bar.label (Bar.datasets (bar_chart c))
     = ["Avg Flowrate"; "Avg Pressure"; "Avg Temperature"]
  /\ map Bar.data (Bar.datasets (bar_chart c))
     = map (fun field =>
              map (fun t => Series.mean (map field (rows_of_type t df)))
                  (Bar.labels (bar_chart c)))
           [flowrate; pressure; temperature].
Proof.
  unfold get_chart_data.
  rewrite compute_analytics_stats_by_type, compute_analytics_type_distribution.
  rewrite stats_by_type_keys, !averages_by_type.
  eexists. split; [reflexivity|].
  cbn [pie_chart bar_chart Pie.labels Pie.data Bar.labels Bar.datasets].
  unfold _compute_type_distribution.
  split; [apply value_counts_keys|].
  split; [apply unique_NoDup|].
  split; [reflexivity|]. split; [reflexivity|].
  split; [|split; [apply value_counts_sorted | split; reflexivity]].
  rewrite value_counts_values. apply map_ext. intros t.
  symmetry. apply rows_of_type_count.
Qed.

(** C2 fails as stated: for a valve followed by two pumps the pie labels
    start with the more frequent type and the bar labels with the type
    seen first. *)
Lemma chart_labels_order_differs :
  valve_then_pumps <> []
  /\ option_map (fun c => Pie.labels (pie_chart c))
       (get_chart_data (compute_analytics valve_then_pumps))
     = Some ["Pump"; "Valve"]
  /\ option_map (fun c => Bar.labels (bar_chart c))
       (get_chart_data (compute_analytics valve_then_pumps))
     = Some ["Valve"; "Pump"]
  /\ option_map (fun c => Pie.data (pie_chart c))
       (get_chart_data (compute_analytics valve_then_pumps))
     = Some [2; 1]
  /\ option_map (fun c => map Bar.data (Bar.datasets (bar_chart c)))
       (get_chart_data (compute_analytics valve_then_pumps))
     = Some [[5; 15]; [1; 2.5]; [20; 35]]%float.
Proof.
  split; [discriminate|]. repeat split; vm_compute; reflexivity.
Qed.

(** The worked example of the specification: two pumps with flowrates
    10 and 20 and a valve with flowrate 5. *)
Example specification_example :
  let a := compute_analytics [pump_10; pump_20; valve_5] in
  type_distribution a = [("Pump", 2); ("Valve", 1)]
  /\ option_map (fun s => FieldStats.avg (TypeStats.flowrate s))
       (lookup "Pump" (stats_by_type a)) = Some 15%float
  /\ avg_flowrate a = (35 / 3)%float.
Proof. repeat split; vm_compute; reflexivity. Qed.

End Aggregator.

(* ================================================================= *)
(** ** Column validation *)

Section ColumnValidation.

Import CSVParserService Ingest.

Fact required_key (c : string) :
  In c REQUIRED_COLUMNS -> key c = Str.lower c.
Proof. simpl. intuition (subst; reflexivity). Qed.

Fact required_lower_inj (c c' : string) :
  In c REQUIRED_COLUMNS -> In c' REQUIRED_COLUMNS ->
  Str.lower c = Str.lower c' -> c = c'.
Proof.
  simpl. intros Hc Hc'.
  repeat (destruct Hc as [<- | Hc]; [|]); try easy;
    repeat (destruct Hc' as [<- | Hc']; [|]); try easy;
    intros H; try reflexivity; discriminate H.
Qed.

Lemma mem_In (x : string) (l : list string) : mem x l = true <-> In x l.
Proof.
  unfold mem. rewrite existsb_exists. split.
  - intros (y & Hy & Heq). apply String.eqb_eq in Heq. now subst.
  - intros H. exists x. split; [easy | apply String.eqb_refl].
Qed.

Lemma matching_header_Some (col a : string) (l : list string) :
  matching_header col l = Some a -> In a l /\ matches a col = true.
Proof.
  induction l as [|x l IH]; simpl; [easy|].
  fold (key x). fold (matches x col).
  destruct (matches x col) eqn:E.
  - intros [= <-]. auto.
  - intros H. destruct (IH H). auto.
Qed.

Lemma matching_header_None (col : string) (l : list string) :
  matching_header col l = None ->
  existsb (fun header => matches header col) l = false.
Proof.
  induction l as [|x l IH]; simpl; [easy|].
  fold (key x). fold (matches x col).
  destruct (matches x col); [easy | exact IH].
Qed.

Lemma existsb_matches (c : string) (l : list string) :
  existsb (fun header => matches header c) l
  = existsb (fun k => String.eqb k (Str.lower c)) (map key l).
Proof. induction l as [|h l IH]; simpl; [easy | now rewrite IH]. Qed.

Lemma absent_key (df df0 : DataFrame) (c : string) :
  map key (columns df) = map key (columns df0) -> absent df c = absent df0 c.
Proof.
  intros H. unfold absent. now rewrite !existsb_matches, H.
Qed.

Lemma present_not_absent (df : DataFrame) (a c : string) :
  In a (columns df) -> matches a c = true -> absent df c = false.
Proof.
  intros Hin Hm. unfold absent. apply negb_false_iff, existsb_exists. eauto.
Qed.

Lemma rename_column_key (a col : string) (df : DataFrame) :
  matches a col = true -> key col = Str.lower col ->
  map key (columns (Frame.rename_column a col df)) = map key (columns df).
Proof.
  intros Hm Hk. unfold Frame.rename_column. simpl. rewrite map_map.
  apply map_ext. intros c. destruct (String.eqb_spec c a) as [-> | _]; [|easy].
  rewrite Hk. symmetry. now apply String.eqb_eq.
Qed.

Lemma canonical_rename (a col : string) (l0 l : list string) :
  In col REQUIRED_COLUMNS -> matches a col = true ->
  Forall2 canonical l0 l ->
  Forall2 canonical l0 (map (fun c => if String.eqb c a then col else c) l).
Proof.
  intros Hcol Hm. induction 1 as [|h0 h l0 l Hh _ IH]; simpl; constructor; [|easy].
  destruct (String.eqb_spec h a) as [-> | _]; [|easy].
  right. split; [easy|]. destruct Hh as [-> | [Hreq Hh]]; [easy|].
  unfold matches in *. apply String.eqb_eq in Hh, Hm. apply String.eqb_eq.
  rewrite Hh, <- (required_key a Hreq). exact Hm.
Qed.

Lemma canonical_refl (l : list string) : Forall2 canonical l l.
Proof. induction l; constructor; [now left | easy]. Qed.

(** The loop over the required columns, from any point of its run on the
    frame [df0]. *)
Lemma check_columns_fold (df0 : DataFrame) (todo : list string) :
  forall (done : list string) (df : DataFrame) (miss : list string),
  incl (done ++ todo) REQUIRED_COLUMNS ->
  miss = filter (absent df0) done ->
  map key (columns df) = map key (columns df0) ->
  rows df = rows df0 ->
  (forall c, In c done -> absent df0 c = false -> In c (columns df)) ->
  Forall2 canonical (columns df0) (columns df) ->
  let st := fold_left check_column todo (df, miss) in
  snd st = filter (absent df0) (done ++ todo)
  /\ rows (fst st) = rows df0
  /\ (forall c, In c (done ++ todo) -> absent df0 c = false ->
        In c (columns (fst st)))
  /\ Forall2 canonical (columns df0) (columns (fst st)).
Proof.
  induction todo as [|col todo IH]; intros done df miss Hreq Hmiss Hkey Hrows Hin Hcan.
  - simpl. rewrite app_nil_r. auto.
  - assert (Hcol : In col REQUIRED_COLUMNS)
      by (apply Hreq, in_or_app; right; now left).
    replace (done ++ col :: todo) with ((done ++ [col]) ++ todo) in *
      by (now rewrite <- app_assoc).
    cbn [fold_left].
    destruct (mem col (columns df)) eqn:Emem.
    + replace (check_column (df, miss) col) with (df, miss)
        by (unfold check_column; now rewrite Emem).
      apply mem_In in Emem.
      assert (Habs : absent df0 col = false).
      { rewrite <- (absent_key df df0 col Hkey).
        apply (present_not_absent df col col Emem).
        unfold matches. rewrite (required_key col Hcol). apply String.eqb_refl. }
      apply IH; try easy.
      * rewrite filter_app. simpl. rewrite Habs. now rewrite app_nil_r.
      * intros c Hc Hc'. apply in_app_or in Hc.
        destruct Hc as [Hc | [<- | []]]; [now apply Hin | easy].
    + destruct (matching_header col (columns df)) as [a|] eqn:Eh.
      * replace (check_column (df, miss) col)
          with (Frame.rename_column a col df, miss)
          by (unfold check_column; now rewrite Emem, Eh).
        apply matching_header_Some in Eh. destruct Eh as [Ha Hm].
        assert (Habs : absent df0 col = false).
        { rewrite <- (absent_key df df0 col Hkey).
          now apply (present_not_absent df a col). }
        apply IH; try easy.
        -- rewrite filter_app. simpl. rewrite Habs. now rewrite app_nil_r.
        -- rewrite rename_column_key; [easy | easy | now apply required_key].
        -- intros c Hc Hc'. simpl. apply in_app_or in Hc.
           destruct Hc as [Hc | [<- | []]].
           ++ apply in_map_iff. exists c. split; [|now apply Hin].
              destruct (String.eqb_spec c a) as [-> | _]; [|easy].
              assert (Hca : In a REQUIRED_COLUMNS)
                by (apply Hreq, in_or_app; left; apply in_or_app; now left).
              unfold matches in Hm. apply String.eqb_eq in Hm.
              rewrite (required_key a Hca) in Hm.
              symmetry. now apply required_lower_inj.
           ++ apply in_map_iff. exists a. now rewrite String.eqb_refl.
        -- simpl. now apply canonical_rename.
      * replace (check_column (df, miss) col) with (df, miss ++ [col])
          by (unfold check_column; now rewrite Emem, Eh).
        apply matching_header_None in Eh.
        assert (Habs : absent df0 col = true).
        { rewrite <- (absent_key df df0 col Hkey). unfold absent. now rewrite Eh. }
        apply IH; try easy.
        -- rewrite filter_app. simpl. now rewrite Habs, Hmiss.
        -- intros c Hc Hc'. apply in_app_or in Hc.
           destruct Hc as [Hc | [<- | []]]; [now apply Hin | congruence].
Qed.

Lemma check_columns_run (df : DataFrame) :
  let st := fold_left check_column REQUIRED_COLUMNS (df, []) in
  snd st = absent_columns df
  /\ rows (fst st) = rows df
  /\ (forall c, In c REQUIRED_COLUMNS -> absent df c = false ->
        In c (columns (fst st)))
  /\ Forall2 canonical (columns df) (columns (fst st)).
Proof.
  apply (check_columns_fold df REQUIRED_COLUMNS [] df []); try easy.
  apply canonical_refl.
Qed.

Lemma validate_columns_run (df : DataFrame) (p : parser) :
  _validate_columns df p =
  let df' := fst (fold_left check_column REQUIRED_COLUMNS (df, [])) in
  match absent_columns df with
  | [] => (inr (df', true), p)
  | _ :: _ =>
      (inr (df', false),
       {| errors := errors p
                    ++ [("Missing required columns: "
                         ++ Str.join ", " (absent_columns df))%string];
          warnings := warnings p |})
  end.
Proof.
  unfold _validate_columns.
  destruct (check_columns_run df) as (Hmiss & _). cbv zeta in Hmiss.
  destruct (fold_left check_column REQUIRED_COLUMNS (df, [])) as [df' miss].
  cbn [fst snd] in *. rewrite Hmiss. now destruct (absent_columns df).
Qed.

End ColumnValidation.

(* ================================================================= *)
(** ** The methods of the parser service *)

Section ParserMethods.

Import CSVParserService Ingest.

Lemma bind_inv {A B : Type} (m : M A) (k : A -> M B) (p p' : parser)
    (r : exn + B) :
  bind m k p = (r, p') ->
  (exists e, m p = (inl e, p') /\ r = inl e)
  \/ (exists a p1, m p = (inr a, p1) /\ k a p1 = (r, p')).
Proof.
  unfold bind. destruct (m p) as [[e | a] p1]; intros H.
  - left. exists e. now inversion H.
  - right. eauto.
Qed.

Lemma found_inv {A : Type} (what : string) (o : option A) (p p' : parser)
    (r : exn + A) :
  found what o p = (r, p') ->
  p' = p /\ match r with
            | inr a => o = Some a
            | inl e => o = None /\ e = Exception what
            end.
Proof. destruct o; cbv; intros [= <- <-]; auto. Qed.

(** A loop whose body only appends warnings leaves the errors alone. *)
Lemma for_each_errors {A : Type} (body : A -> M unit) (l : list A) :
  (forall x p r p', body x p = (r, p') -> errors p' = errors p) ->
  forall p r p', for_each body l p = (r, p') -> errors p' = errors p.
Proof.
  intros Hbody. induction l as [|x l IH]; simpl; intros p r p' H.
  - now inversion H.
  - apply bind_inv in H. destruct H as [(e & H & _) | (a & p1 & H1 & H2)].
    + now apply Hbody in H.
    + apply Hbody in H1. apply IH in H2. congruence.
Qed.

Lemma add_warning_errors (msg : string) (p p' : parser) (r : exn + unit) :
  add_warning msg p = (r, p') -> errors p' = errors p.
Proof. cbv. now intros [= <- <-]. Qed.

Lemma warn_if_errors (b : bool) (msg : string) (p p' : parser) (r : exn + unit) :
  (if b then add_warning msg else ret tt) p = (r, p') -> errors p' = errors p.
Proof. destruct b; cbv; now intros [= <- <-]. Qed.

Lemma negative_check_errors (df : DataFrame) (col : string) (p p' : parser)
    (r : exn + unit) :
  (cells <- found "KeyError" (Frame.column col df) ;;
   neg <- found "TypeError" (Frame.any_negative cells) ;;
   if neg then
     add_warning ("Column '" ++ col ++ "' contains negative values.")%string
   else ret tt) p = (r, p') ->
  errors p' = errors p.
Proof.
  intros H.
  apply bind_inv in H. destruct H as [(e & H & _) | (cells & p1 & H1 & H)].
  { apply found_inv in H. now destruct H as [-> _]. }
  apply found_inv in H1. destruct H1 as [-> _].
  apply bind_inv in H. destruct H as [(e & H & _) | (neg & p2 & H2 & H)].
  { apply found_inv in H. now destruct H as [-> _]. }
  apply found_inv in H2. destruct H2 as [-> _].
  destruct neg; [now apply add_warning_errors in H | now inversion H].
Qed.

(** The verdict of [_validate_data]: it returns [True] with the errors
    untouched and only when some row has its three measurements, and it
    returns [False] with one of its two errors appended; when it raises,
    the errors are untouched. *)
Lemma validate_data_verdict (df : DataFrame) (p p' : parser) (r : exn + bool) :
  _validate_data df p = (r, p') ->
  match r with
  | inr true =>
      errors p' = errors p
      /\ exists row, In row (rows df) /\ complete measurements df row = true
  | inr false =>
      errors p' = errors p ++ ["No valid data rows found in the file."]
      \/ errors p' = errors p ++ ["No valid data rows after cleaning."]
  | inl _ => errors p' = errors p
  end.
Proof.
  unfold _validate_data. destruct (Frame.empty df) eqn:Eempty.
  { cbv. intros [= <- <-]. now left. }
  intros H.
  apply bind_inv in H. destruct H as [(e & H & ->) | (counts & p1 & H1 & H)].
  { apply found_inv in H. now destruct H as [-> _]. }
  apply found_inv in H1. destruct H1 as [-> _].
  apply bind_inv in H. destruct H as [(e & H & ->) | ([] & p2 & H2 & H)].
  { eapply for_each_errors; [|exact H]. intros ? ? ? ? Hx; exact (add_warning_errors _ _ _ _ Hx). }
  assert (E2 : errors p2 = errors p).
  { eapply for_each_errors; [|exact H2]. intros ? ? ? ? Hx; exact (add_warning_errors _ _ _ _ Hx). }
  apply bind_inv in H. destruct H as [(e & H & ->) | (df_clean & p3 & H3 & H)].
  { apply found_inv in H. destruct H as [-> _]. easy. }
  apply found_inv in H3. destruct H3 as [-> Hclean].
  apply bind_inv in H. destruct H as [(e & H & ->) | ([] & p4 & H4 & H)].
  { apply warn_if_errors in H. congruence. }
  apply warn_if_errors in H4.
  destruct (Frame.empty df_clean) eqn:Eclean.
  { unfold bind, add_error, ret in H. inversion H; subst; clear H.
    cbn [errors]. right. congruence. }
  apply bind_inv in H. destruct H as [(e & H & ->) | ([] & p5 & H5 & H)].
  { assert (errors p' = errors p4); [|congruence].
    eapply for_each_errors; [|exact H]. intros ? ? ? ? Hx; exact (negative_check_errors _ _ _ _ _ Hx). }
  assert (E5 : errors p5 = errors p4).
  { eapply for_each_errors; [|exact H5]. intros ? ? ? ? Hx; exact (negative_check_errors _ _ _ _ _ Hx). }
  inversion H; subst; clear H. split; [congruence|].
  unfold Frame.dropna_subset in Hclean. unfold complete. fold measurements in Hclean.
  destruct (Frame.positions measurements df) as [ps|]; [|discriminate].
  injection Hclean as <-. unfold Frame.empty in Eclean, Eempty. simpl in Eclean.
  apply orb_false_iff in Eempty. destruct Eempty as [Ecols _].
  rewrite Ecols in Eclean. simpl in Eclean.
  destruct (filter (Frame.complete_at ps) (rows df)) as [|row l] eqn:Ef; [easy|].
  exists row. apply filter_In. rewrite Ef. now left.
Qed.

End ParserMethods.

(* ================================================================= *)
(** ** [parse_file] *)

Section ParseFile.

Import CSVParserService Ingest.

Variable to_numeric_text : string -> option float.
Variable float_str : float -> string.

Abbreviation parse_body := (parse_body to_numeric_text float_str).
Abbreviation parse_file := (parse_file to_numeric_text float_str).
Abbreviation _clean_data := (_clean_data to_numeric_text float_str).

(** The body of [parse_file] on a file that [pd.read_csv] reads. *)
Lemma parse_body_content (utf8 : bool) (df : DataFrame) (p : parser) :
  parse_body (Content utf8 (inr df)) p =
  let pw := if utf8 then p
            else {| errors := errors p;
                    warnings := warnings p ++ [latin1_warning] |} in
  match absent_columns df with
  | [] =>
      match _validate_data (_clean_data (validated df)) pw with
      | (inl e, p') => (inl e, p')
      | (inr true, p') =>
          (inr (Frame.rename COLUMN_MAPPING (_clean_data (validated df)), true), p')
      | (inr false, p') => (inr (Frame.new, false), p')
      end
  | _ :: _ =>
      (inr (Frame.new, false),
       {| errors := errors pw ++ [missing_columns_error (absent_columns df)];
          warnings := warnings pw |})
  end.
Proof.
  unfold CSVParserService.parse_body.
  set (pw := if utf8 then p else _).
  assert (Hw : (if utf8 then ret tt else add_warning latin1_warning) p = (inr tt, pw))
    by (subst pw; now destruct utf8).
  unfold bind at 1. fold latin1_warning. rewrite Hw.
  unfold bind at 1. unfold ret at 1.
  unfold bind at 1. rewrite validate_columns_run. fold (validated df).
  cbv zeta. destruct (absent_columns df) as [|c cs] eqn:Eabs.
  - cbn [negb]. unfold bind.
    destruct (_validate_data _ pw) as [[e | [|]] p']; reflexivity.
  - reflexivity.
Qed.

(** The errors [parse_file] returns with each verdict. *)
Lemma parse_file_verdict (file_obj : UploadedFile) (self : parser) :
  match parse_file file_obj self with
  | ((df, true), p) => errors p = []
  | ((df, false), p) => errors p <> [] /\ df = Frame.new
  end.
Proof.
  unfold CSVParserService.parse_file.
  destruct file_obj as [msg | utf8 [e | df]].
  - simpl. split; [discriminate | reflexivity].
  - destruct utf8, e; simpl; split; (discriminate || reflexivity).
  - rewrite parse_body_content. cbv zeta.
    set (pw := if utf8 then _ else _).
    assert (Hpw : errors pw = []) by (subst pw; now destruct utf8).
    destruct (absent_columns df) as [|c cs].
    + pose proof (validate_data_verdict (_clean_data (validated df)) pw) as Hv.
      destruct (_validate_data _ pw) as [[e | [|]] p'];
        specialize (Hv _ _ eq_refl); cbn beta iota in Hv.
      * destruct e; cbn [errors]; (split; [|reflexivity]);
          now destruct (errors p').
      * destruct Hv as [Hv _]. congruence.
      * split; [|reflexivity]. rewrite Hpw in Hv.
        destruct Hv as [-> | ->]; discriminate.
    + split; [|reflexivity]. cbn [errors]. now destruct (errors pw).
Qed.

(** C3.  [parse_file] is a total function to a frame, a verdict and the
    two message lists: every raise inside its body is caught.  A failed
    parse comes with at least one error and with the empty frame, and a
    successful one with no error.  The parse fails when the file cannot
    be read, when [pd.read_csv] raises (the empty file, unparseable
    syntax, or anything else, each with its own message), when a
    required column is absent, and when no row of the cleaned frame has
    its three measurements. *)
Theorem parse_file_failure_semantics (file_obj : UploadedFile) (self : parser) :
  let result := parse_file file_obj self in
  let df := fst (fst result) in
  let success := snd (fst result) in
  let errs := get_errors (snd result) in
  (success = false -> errs <> [] /\ df = Frame.new)
  /\ (success = true -> errs = [])
  /\ (forall msg, file_obj = Unreadable msg ->
        success = false /\ errs = [("Unexpected error: " ++ msg)%string])
  /\ (forall utf8 msg, file_obj = Content utf8 (inl (EmptyDataError msg)) ->
        success = false /\ errs = ["The uploaded file is empty."])
  /\ (forall utf8 msg, file_obj = Content utf8 (inl (ParserError msg)) ->
        success = false /\ errs = [("Failed to parse CSV: " ++ msg)%string])
  /\ (forall utf8 msg, file_obj = Content utf8 (inl (Exception msg)) ->
        success = false /\ errs = [("Unexpected error: " ++ msg)%string])
  /\ (forall utf8 frame, file_obj = Content utf8 (inr frame) ->
        absent_columns frame <> [] -> success = false)
  /\ (forall utf8 frame, file_obj = Content utf8 (inr frame) ->
        (forall row, In row (rows (_clean_data (validated frame))) ->
           complete measurements (_clean_data (validated frame)) row = false) ->
        success = false).
Proof.
  intros result df success errs. subst df success errs result.
  pose proof (parse_file_verdict file_obj self) as Hv.
  split; [|split; [|split; [|split; [|split; [|split; [|split]]]]]].
  - destruct (parse_file file_obj self) as [[df [|]] p]; [discriminate|].
    intros _. exact Hv.
  - destruct (parse_file file_obj self) as [[df [|]] p]; [|discriminate].
    intros _. exact Hv.
  - intros msg ->. split; reflexivity.
  - intros [|] msg ->; split; reflexivity.
  - intros [|] msg ->; split; reflexivity.
  - intros [|] msg ->; split; reflexivity.
  - intros utf8 frame -> Habs. unfold CSVParserService.parse_file.
    rewrite parse_body_content. cbv zeta.
    destruct (absent_columns frame); [easy | reflexivity].
  - intros utf8 frame -> Hrows. unfold CSVParserService.parse_file.
    rewrite parse_body_content. cbv zeta.
    set (pw := if utf8 then _ else _).
    destruct (absent_columns frame); [|reflexivity].
    pose proof (validate_data_verdict (_clean_data (validated frame)) pw) as Hd.
    destruct (_validate_data _ pw) as [[e | [|]] p'];
      specialize (Hd _ _ eq_refl); cbn beta iota in Hd.
    + now destruct e.
    + destruct Hd as (_ & row & Hin & Hc). rewrite (Hrows row Hin) in Hc.
      discriminate.
    + reflexivity.
Qed.

(** C4.  On a file that [pd.read_csv] reads, the required columns that
    no header matches (up to letter case and surrounding whitespace) are
    the absent ones.  When there is one, [parse_file] fails with the
    empty frame and a single error that lists the absent columns, in the
    order of [REQUIRED_COLUMNS] and separated by commas.  When there is
    none, [_validate_columns] accepts the frame without a message, every
    header is left as it is or replaced by the canonical name it
    matches, every required column is then a column, and no error of
    [parse_file] reports missing columns. *)
Theorem missing_columns_reported (utf8 : bool) (df : DataFrame) (self : parser) :
  (forall col, In col (absent_columns df) <->
     In col REQUIRED_COLUMNS
     /\ forall header, In header (columns df) -> matches header col = false)
  /\ (absent_columns df <> [] ->
      parse_file (Content utf8 (inr df)) self
      = ((Frame.new, false),
         {| errors := [missing_columns_error (absent_columns df)];
            warnings := if utf8 then [] else [latin1_warning] |}))
  /\ (absent_columns df = [] ->
      (forall p, _validate_columns df p = (inr (validated df, true), p))
      /\ incl REQUIRED_COLUMNS (columns (validated df))
      /\ Forall2 canonical (columns df) (columns (validated df))
      /\ rows (validated df) = rows df
      /\ forall e,
           In e (get_errors (snd (parse_file (Content utf8 (inr df)) self))) ->
           String.prefix "Missing required columns" e = false).
Proof.
  split; [|split].
  - intros col. unfold absent_columns. rewrite filter_In. unfold absent.
    rewrite negb_true_iff. split; intros [Hreq H]; (split; [exact Hreq|]).
    + intros header Hh. destruct (matches header col) eqn:E; [|easy].
      assert (existsb (fun h => matches h col) (columns df) = true); [|congruence].
      apply existsb_exists. eauto.
    + destruct (existsb _ (columns df)) eqn:E; [|easy].
      apply existsb_exists in E. destruct E as (h & Hh & Hm).
      rewrite (H h Hh) in Hm. discriminate.
  - intros Habs. unfold CSVParserService.parse_file.
    rewrite parse_body_content. cbv zeta.
    destruct (absent_columns df); [easy|]. now destruct utf8.
  - intros Habs. destruct (check_columns_run df) as (_ & Hrows & Hin & Hcan).
    fold (validated df) in Hrows, Hin, Hcan.
    split; [|split; [|split; [|split]]]; try easy.
    + intros p. rewrite validate_columns_run. now rewrite Habs.
    + intros c Hc. apply Hin; [easy|].
      destruct (absent df c) eqn:E; [|easy].
      assert (In c (absent_columns df))
        by (unfold absent_columns; apply filter_In; auto).
      rewrite Habs in *. easy.
    + unfold CSVParserService.parse_file. rewrite parse_body_content. cbv zeta.
      set (pw := if utf8 then _ else _).
      assert (Hpw : errors pw = []) by (subst pw; now destruct utf8).
      rewrite Habs.
      pose proof (validate_data_verdict (_clean_data (validated df)) pw) as Hv.
      destruct (_validate_data _ pw) as [[e | [|]] p'];
        specialize (Hv _ _ eq_refl); cbn beta iota in Hv.
      * rewrite Hpw in Hv.
        destruct e; unfold get_errors; cbn [snd errors]; rewrite Hv;
          intros e' [<- | []]; reflexivity.
      * destruct Hv as [Hv _]. unfold get_errors; cbn [snd]. rewrite Hv, Hpw. easy.
      * unfold get_errors; cbn [snd]. rewrite Hpw in Hv.
        destruct Hv as [-> | ->]; intros e' [<- | []]; reflexivity.
Qed.

(** C1 breaks on the code: for the file whose second row has no
    flowrate, [parse_file] succeeds, warns that one row was dropped, and
    returns both rows, the second without a flowrate.  The frame that
    [_validate_data] filters is local to it. *)
Theorem parse_file_returns_incomplete_row (self : parser) :
  let returned := {|
    columns := ["name"; "type"; "flowrate"; "pressure"; "temperature"];
    rows := [ [Text "P1"; Text "Pump"; Num 10; Int 1; Int 20];
              [Text "P2"; Text "Pump"; Num PrimFloat.nan; Int 2; Int 30] ] |} in
  parse_file (Content true (inr blank_flowrate)) self
  = ((returned, true),
     {| errors := [];
        warnings := ["Column 'Flowrate' has 1 missing values.";
                     "Dropped 1 rows with missing numeric values."] |})
  /\ map (complete measurement_fields returned) (rows returned) = [true; false].
Proof.
  split; vm_compute; reflexivity.
Qed.

End ParseFile.

(** A file in which no flowrate reads as a number has no valid row. *)
Example parse_file_no_numeric_flowrate :
  CSVParserService.parse_file Ingest.decimal_text Ingest.nan_str
    (CSVParserService.Content true (inr Ingest.no_numeric_flowrate))
    {| CSVParserService.errors := []; CSVParserService.warnings := [] |}
  = ((Frame.new, false),
     {| CSVParserService.errors := ["No valid data rows after cleaning."];
        CSVParserService.warnings :=
          ["Column 'Flowrate' has 2 missing values.";
           "Dropped 2 rows with missing numeric values."] |}).
Proof. vm_compute. reflexivity. Qed.

Lemma missing_columns_reported_witness :
  Ingest.absent_columns Ingest.no_pressure = ["Pressure"]
  /\ CSVParserService.parse_file Ingest.decimal_text Ingest.nan_str
       (CSVParserService.Content false (inr Ingest.no_pressure))
       {| CSVParserService.errors := []; CSVParserService.warnings := [] |}
     = ((Frame.new, false),
        {| CSVParserService.errors := ["Missing required columns: Pressure"];
           CSVParserService.warnings := [Ingest.latin1_warning] |})
  /\ Ingest.absent_columns Ingest.header_variants = []
  /\ columns (Ingest.validated Ingest.header_variants)
     = CSVParserService.REQUIRED_COLUMNS.
Proof.
  split; [reflexivity|]. split.
  - refine (proj1 (proj2 (missing_columns_reported Ingest.decimal_text
      Ingest.nan_str false Ingest.no_pressure _)) _).
    discriminate.
  - split; reflexivity.
Defined.

(* ================================================================= *)
(** ** The retention cap *)

Section Retention.

Import DatasetViewSet.

Lemma insert_newest_first_perm (d : Dataset.t) (l : list Dataset.t) :
  Permutation (insert_newest_first d l) (d :: l).
Proof.
  induction l as [|d' l IH]; simpl; [easy|].
  destruct (Dataset.uploaded_at d' <=? Dataset.uploaded_at d)%Z; [easy|].
  rewrite IH. apply perm_swap.
Qed.

Lemma order_by_perm (l : list Dataset.t) :
  Permutation (order_by_uploaded_at_desc l) l.
Proof.
  induction l as [|d l IH]; simpl; [easy|].
  rewrite insert_newest_first_perm. now constructor.
Qed.

Lemma insert_newest_first_sorted (d : Dataset.t) (l : list Dataset.t) :
  StronglySorted newer l -> StronglySorted newer (insert_newest_first d l).
Proof.
  induction 1 as [|d' l Hl IH Hall]; simpl.
  - repeat constructor.
  - destruct (Z.leb_spec (Dataset.uploaded_at d') (Dataset.uploaded_at d))
      as [Hle | Hgt].
    + constructor; [now constructor|]. constructor; [easy|].
      eapply Forall_impl; [|exact Hall]. unfold newer. intros; lia.
    + constructor; [easy|].
      eapply Permutation_Forall; [symmetry; apply insert_newest_first_perm|].
      constructor; [unfold newer; lia | easy].
Qed.

Lemma order_by_sorted (l : list Dataset.t) :
  StronglySorted newer (order_by_uploaded_at_desc l).
Proof.
  induction l as [|d l IH]; simpl; [constructor|].
  now apply insert_newest_first_sorted.
Qed.

Lemma newest_first_split (n : nat) (l : list Dataset.t) :
  StronglySorted newer l ->
  forall kept gone, In kept (firstn n l) -> In gone (skipn n l) ->
  newer kept gone.
Proof.
  intros Hl. revert n. induction Hl as [|d l Hl IH Hall]; intros n kept gone.
  - now rewrite firstn_nil.
  - destruct n as [|n]; simpl; [easy|].
    intros [<- | Hk] Hg.
    + rewrite Forall_forall in Hall. apply Hall.
      rewrite <- (firstn_skipn n l). apply in_or_app. now right.
    + now apply (IH n).
Qed.

(** The loop removes the rows whose primary key is one of the listed
    datasets', and no other. *)
Lemma remove_old_datasets (olds : list Dataset.t) (s : Store) :
  datasets (fold_left remove_old olds s)
  = filter (fun d => negb (existsb (fun o => Dataset.id d =? Dataset.id o) olds))
           (datasets s).
Proof.
  revert s. induction olds as [|o olds IH]; intros s; simpl.
  - induction (datasets s); simpl; congruence.
  - rewrite IH. unfold remove_old, delete, file_delete.
    destruct (String.eqb (Dataset.file o) ""); simpl;
      induction (datasets s) as [|d l IHl]; simpl; try easy;
      destruct (Dataset.id d =? Dataset.id o); simpl;
      try destruct (existsb _ olds); simpl; now rewrite ?IHl.
Qed.

Lemma listed_id (olds : list Dataset.t) (table : list Dataset.t) (d : Dataset.t) :
  NoDup (map Dataset.id table) -> incl olds table -> In d table ->
  existsb (fun o => Dataset.id d =? Dataset.id o) olds = true <-> In d olds.
Proof.
  intros Hnd Hincl Hd. rewrite existsb_exists. split.
  - intros (o & Ho & Hid). apply Nat.eqb_eq in Hid.
    assert (d = o); [|now subst].
    clear -Hnd Hd Hid Ho Hincl. apply Hincl in Ho. clear Hincl.
    induction table as [|x table IH]; [easy|].
    simpl in Hnd. inversion Hnd as [|? ? Hx Hnd']; subst.
    destruct Hd as [-> | Hd], Ho as [-> | Ho]; try easy.
    + exfalso. apply Hx. rewrite Hid. now apply in_map.
    + exfalso. apply Hx. rewrite <- Hid. now apply in_map.
    + now apply IH.
  - intros H. exists d. split; [easy | apply Nat.eqb_refl].
Qed.

Lemma filter_all {A : Type} (f : A -> bool) (l : list A) :
  (forall x, In x l -> f x = true) -> filter f l = l.
Proof.
  induction l as [|x l IH]; simpl; intros H; [easy|].
  rewrite (H x) by now left. rewrite IH; [easy|]. intros; apply H; now right.
Qed.

Lemma filter_none {A : Type} (f : A -> bool) (l : list A) :
  (forall x, In x l -> f x = false) -> filter f l = [].
Proof.
  induction l as [|x l IH]; simpl; intros H; [easy|].
  rewrite (H x) by now left. apply IH. intros; apply H; now right.
Qed.

Lemma filter_comm {A : Type} (f g : A -> bool) (l : list A) :
  filter f (filter g l) = filter g (filter f l).
Proof.
  induction l as [|x l IH]; simpl; [easy|].
  destruct (f x) eqn:Ef, (g x) eqn:Eg; simpl; rewrite ?Ef, ?Eg, IH; easy.
Qed.

Lemma filter_perm {A : Type} (f : A -> bool) (l l' : list A) :
  Permutation l l' -> Permutation (filter f l) (filter f l').
Proof.
  induction 1 as [|x l l' _ IH|x y l|l l' l'' _ IH1 _ IH2]; simpl.
  - constructor.
  - destruct (f x); [now constructor | easy].
  - destruct (f x), (f y); try easy. apply perm_swap.
  - now transitivity (filter f l').
Qed.

Lemma NoDup_app_disjoint {A : Type} (l1 l2 : list A) (x : A) :
  NoDup (l1 ++ l2) -> In x l1 -> ~ In x l2.
Proof.
  induction l1 as [|y l1 IH]; simpl; [easy|].
  intros Hnd [-> | Hin] H2; inversion Hnd as [|? ? Hy Hnd']; subst.
  - apply Hy, in_or_app. now right.
  - now apply (IH Hnd' Hin).
Qed.

(** C9.  Enforcing the limit on a table with unique primary keys leaves
    the user with the smaller of the former number of datasets and
    [max_datasets], hence with at most [max_datasets]; it removes
    datasets of this user only and adds none; every dataset it removes
    was uploaded no later than every dataset it keeps; and it changes
    nothing when the user is within the limit. *)
Theorem enforce_dataset_limit_fifo (max_datasets user : nat) (s : Store) :
  NoDup (map Dataset.id (datasets s)) ->
  let s' := _enforce_dataset_limit max_datasets user s in
  let mine := filter_uploaded_by user (datasets s) in
  let mine' := filter_uploaded_by user (datasets s') in
  List.length mine' = Nat.min (List.length mine) max_datasets
  /\ List.length mine' <= max_datasets
  /\ incl (datasets s') (datasets s)
  /\ (forall d, In d (datasets s) -> Dataset.uploaded_by d <> user ->
        In d (datasets s'))
  /\ (forall kept gone, In kept mine' -> In gone mine -> ~ In gone mine' ->
        (Dataset.uploaded_at gone <= Dataset.uploaded_at kept)%Z)
  /\ (List.length mine <= max_datasets -> s' = s).
Proof.
  intros Hids s' mine mine'.
  set (sorted := order_by_uploaded_at_desc mine).
  assert (Hperm : Permutation sorted mine) by apply order_by_perm.
  assert (Hlen : List.length sorted = List.length mine)
    by now apply Permutation_length.
  assert (Hs' : s' = if max_datasets <? List.length sorted
                     then fold_left remove_old (skipn max_datasets sorted) s
                     else s) by reflexivity.
  destruct (Nat.ltb_spec max_datasets (List.length sorted)) as [Hover | Hwithin].
  2:{ subst mine'. rewrite Hs'. fold mine.
      split; [lia|]. split; [lia|]. split; [apply incl_refl|].
      split; [easy|]. split; [|easy]. intros kept gone _ Hg Hng. easy. }
  set (olds := skipn max_datasets sorted) in *.
  set (listed := fun d => existsb (fun o => Dataset.id d =? Dataset.id o) olds).
  assert (Hdata : datasets s' = filter (fun d => negb (listed d)) (datasets s))
    by (rewrite Hs'; apply remove_old_datasets).
  assert (Hmine_in : incl mine (datasets s))
    by (intros d Hd; now apply filter_In in Hd).
  assert (Holds : incl olds (datasets s)).
  { intros d Hd. apply Hmine_in. apply (Permutation_in _ Hperm).
    rewrite <- (firstn_skipn max_datasets sorted). apply in_or_app. now right. }
  assert (Hlisted : forall d, In d (datasets s) -> listed d = true <-> In d olds)
    by (intros d Hd; now apply (listed_id olds (datasets s))).
  assert (Hnd : NoDup sorted).
  { apply (Permutation_NoDup (Permutation_sym Hperm)).
    apply NoDup_filter. now apply NoDup_map_inv in Hids. }
  assert (Hmine' : mine' = filter (fun d => negb (listed d)) mine)
    by (subst mine' mine; unfold filter_uploaded_by; rewrite Hdata;
        apply filter_comm).
  assert (Hkept : Permutation mine' (firstn max_datasets sorted)).
  { rewrite Hmine'.
    transitivity (filter (fun d => negb (listed d)) sorted).
    { apply filter_perm. now symmetry. }
    rewrite <- (firstn_skipn max_datasets sorted) at 1. rewrite filter_app.
    rewrite filter_all, filter_none, app_nil_r; [easy | |].
    - intros d Hd. apply negb_false_iff. apply Hlisted; [now apply Holds | easy].
    - intros d Hd. apply negb_true_iff.
      destruct (listed d) eqn:E; [|easy]. exfalso.
      assert (Hin : In d (datasets s)).
      { apply Hmine_in, (Permutation_in _ Hperm).
        rewrite <- (firstn_skipn max_datasets sorted). apply in_or_app. now left. }
      apply (Hlisted d Hin) in E.
      rewrite <- (firstn_skipn max_datasets sorted) in Hnd.
      now apply (NoDup_app_disjoint _ _ d Hnd Hd). }
  assert (Hcount : List.length mine' = max_datasets).
  { rewrite (Permutation_length Hkept), length_firstn. lia. }
  split; [rewrite Hcount; lia|]. split; [lia|]. split; [|split; [|split]].
  - rewrite Hdata. intros d Hd. now apply filter_In in Hd.
  - intros d Hd Hother. rewrite Hdata. apply filter_In. split; [easy|].
    apply negb_true_iff. destruct (listed d) eqn:E; [|easy]. exfalso.
    apply (Hlisted d Hd) in E.
    assert (Hm : In d mine).
    { apply (Permutation_in _ Hperm).
      rewrite <- (firstn_skipn max_datasets sorted). apply in_or_app. now right. }
    apply filter_In in Hm. destruct Hm as [_ Hm]. apply Nat.eqb_eq in Hm. easy.
  - intros kept gone Hk Hg Hng.
    apply (newest_first_split max_datasets sorted (order_by_sorted mine)).
    + now apply (Permutation_in _ Hkept).
    + apply (Permutation_in _ (Permutation_sym Hperm)) in Hg.
      rewrite <- (firstn_skipn max_datasets sorted) in Hg.
      apply in_app_or in Hg. destruct Hg as [Hg | Hg]; [|easy].
      exfalso. apply Hng. now apply (Permutation_in _ (Permutation_sym Hkept)).
  - intros Hle. lia.
Qed.

Lemma enforce_dataset_limit_fifo_witness :
  NoDup (map Dataset.id (datasets four_uploads))
  /\ List.length
       (filter_uploaded_by 7 (datasets (_enforce_dataset_limit 2 7 four_uploads)))
     = 2.
Proof.
  assert (H : NoDup (map Dataset.id (datasets four_uploads))).
  { simpl. repeat constructor; simpl; intuition discriminate. }
  split; [exact H|].
  exact (proj1 (enforce_dataset_limit_fifo 2 7 four_uploads H)).
Defined.

Example enforce_dataset_limit_four_uploads :
  datasets (_enforce_dataset_limit 2 7 four_uploads)
  = [upload 2 8 150; upload 3 7 300; upload 4 7 200].
Proof. reflexivity. Qed.

End Retention.

(* ================================================================= *)
(** ** Further properties of the aggregator *)

Section AggregatorMore.

Import AnalyticsService.

Lemma lookup_None {V : Type} (k : string) (d : list (string * V)) :
  ~ In k (keys d) -> lookup k d = None.
Proof.
  induction d as [|[k' v] d IH]; simpl; [easy|]. intros H.
  destruct (String.eqb_spec k k') as [-> | _]; [exfalso; apply H; now left|].
  apply IH. intros Hin. apply H. now right.
Qed.

Lemma fold_fmin_In (tl : list float) (a : float) :
  In (fold_left Series.fmin tl a) (a :: tl).
Proof.
  revert a. induction tl as [|y tl IH]; intros a; simpl; [now left|].
  destruct (IH (Series.fmin a y)) as [H | H]; [|now right; right].
  rewrite <- H. destruct (fmin_cases a y) as [-> | ->]; auto.
Qed.

Lemma fold_fmax_In (tl : list float) (a : float) :
  In (fold_left Series.fmax tl a) (a :: tl).
Proof.
  revert a. induction tl as [|y tl IH]; intros a; simpl; [now left|].
  destruct (IH (Series.fmax a y)) as [H | H]; [|now right; right].
  rewrite <- H. destruct (fmax_cases a y) as [-> | ->]; auto.
Qed.

Lemma series_min_max_In (xs : list float) (x : float) :
  In x xs -> PrimFloat.is_nan x = false ->
  In (Series.min xs) xs /\ In (Series.max xs) xs.
Proof.
  intros Hin Hx. assert (Hd : In x (Series.dropna xs)) by now apply dropna_In.
  unfold Series.min, Series.max.
  destruct (Series.dropna xs) as [|a tl] eqn:E; [easy|].
  split.
  - apply (proj1 (proj1 (dropna_In _ xs) ltac:(rewrite E; apply fold_fmin_In))).
  - apply (proj1 (proj1 (dropna_In _ xs) ltac:(rewrite E; apply fold_fmax_In))).
Qed.

Lemma field_attained (field : Equipment -> float) (part : list Equipment)
    (r0 : Equipment) :
  In r0 part -> PrimFloat.is_nan (field r0) = false ->
  attained (Series.min (map field part)) field part
  /\ attained (Series.max (map field part)) field part.
Proof.
  intros Hin Hx.
  destruct (series_min_max_In (map field part) (field r0)) as [Hlo Hhi];
    [now apply in_map | easy |].
  apply in_map_iff in Hlo, Hhi.
  destruct Hlo as (r & Hr & Hrin), Hhi as (r' & Hr' & Hrin').
  split; [exists r | exists r']; auto.
Qed.

(** X2.  When some row has its three measurements, every minimum and
    maximum of the snapshot is the value of the field on some row: a row
    of the collection for the global fields, and a row of the same type
    for the entry of that type. *)
Theorem min_max_attained (df : list Equipment) (r0 : Equipment) :
  In r0 df -> numeric r0 ->
  let a := compute_analytics df in
  attained (min_flowrate a) flowrate df
  /\ attained (max_flowrate a) flowrate df
  /\ attained (min_pressure a) pressure df
  /\ attained (max_pressure a) pressure df
  /\ attained (min_temperature a) temperature df
  /\ attained (max_temperature a) temperature df
  /\ exists s, lookup (type r0) (stats_by_type a) = Some s
     /\ let part := rows_of_type (type r0) df in
        attained (FieldStats.min (TypeStats.flowrate s)) flowrate part
        /\ attained (FieldStats.max (TypeStats.flowrate s)) flowrate part
        /\ attained (FieldStats.min (TypeStats.pressure s)) pressure part
        /\ attained (FieldStats.max (TypeStats.pressure s)) pressure part
        /\ attained (FieldStats.min (TypeStats.temperature s)) temperature part
        /\ attained (FieldStats.max (TypeStats.temperature s)) temperature part.
Proof.
  intros Hin (Hf & Hp & Ht) a. subst a.
  rewrite compute_analytics_stats_by_type.
  destruct (field_attained flowrate df r0 Hin Hf) as [F1 F2].
  destruct (field_attained pressure df r0 Hin Hp) as [P1 P2].
  destruct (field_attained temperature df r0 Hin Ht) as [T1 T2].
  destruct df as [|r df']; [easy|]. set (df := r :: df') in *.
  repeat (split; [assumption|]).
  exists (snd (type_entry df (type r0))).
  split; [apply stats_by_type_lookup; now apply in_map|].
  pose proof (rows_of_type_In r0 df Hin) as Hpart.
  cbn [type_entry snd TypeStats.flowrate TypeStats.pressure
       TypeStats.temperature field_stats FieldStats.min FieldStats.max].
  destruct (field_attained flowrate _ r0 Hpart Hf).
  destruct (field_attained pressure _ r0 Hpart Hp).
  destruct (field_attained temperature _ r0 Hpart Ht).
  repeat split; assumption.
Qed.

Lemma min_max_attained_witness :
  In pump_10 valve_then_pumps /\ numeric pump_10
  /\ attained (min_flowrate (compute_analytics valve_then_pumps))
              flowrate valve_then_pumps.
Proof.
  assert (Hin : In pump_10 valve_then_pumps) by (right; left; reflexivity).
  assert (Hnum : numeric pump_10) by (repeat split).
  split; [exact Hin|]. split; [exact Hnum|].
  exact (proj1 (min_max_attained valve_then_pumps pump_10 Hin Hnum)).
Defined.

Lemma count_of_le (t : string) (l : list string) :
  Series.count_of t l <= List.length l.
Proof. unfold Series.count_of. apply filter_length_le. Qed.

Lemma count_of_pos (t : string) (l : list string) :
  In t l -> 1 <= Series.count_of t l.
Proof.
  intros Hin. unfold Series.count_of.
  assert (H : In t (filter (String.eqb t) l))
    by (apply filter_In; split; [easy | apply String.eqb_refl]).
  destruct (filter (String.eqb t) l); [easy | simpl; lia].
Qed.

Lemma length_le_list_sum (l : list nat) :
  Forall (fun n => 1 <= n) l -> List.length l <= list_sum l.
Proof.
  induction 1 as [|n l Hn _ IH]; [easy|].
  change (list_sum (n :: l)) with (n + list_sum l). simpl. lia.
Qed.

(** X3.  In every snapshot each count of the type distribution is at
    least 1 and at most [total_count], there are at most [total_count]
    types, and the counts carried by the entries of [stats_by_type] add
    up to [total_count]. *)
Theorem type_counts_bounds (df : list Equipment) :
  let a := compute_analytics df in
  Forall (fun n => 1 <= n <= total_count a) (values (type_distribution a))
  /\ List.length (keys (type_distribution a)) <= total_count a
  /\ list_sum (map (fun e => TypeStats.count (snd e)) (stats_by_type a))
     = total_count a.
Proof.
  intros a. subst a.
  rewrite compute_analytics_type_distribution, compute_analytics_total_count,
    compute_analytics_stats_by_type.
  unfold _compute_type_distribution.
  assert (Hval : Forall (fun n => 1 <= n <= List.length df)
                        (values (Series.value_counts (map type df)))).
  { rewrite value_counts_values. apply Forall_map, Forall_forall. intros t Ht.
    apply (Permutation_in _ (value_counts_keys _)) in Ht.
    apply (proj1 (unique_In _ _)) in Ht.
    split; [now apply count_of_pos|].
    rewrite <- (length_map type df). apply count_of_le. }
  split; [exact Hval|]. split.
  - unfold keys. rewrite length_map.
    rewrite <- (length_map snd (Series.value_counts (map type df))).
    fold (values (Series.value_counts (map type df))).
    rewrite <- (length_map type df), <- (value_counts_total (map type df)).
    apply length_le_list_sum. eapply Forall_impl; [|exact Hval]. simpl. lia.
  - unfold _compute_stats_by_type. rewrite map_map.
    rewrite (map_ext _ (fun t => Series.count_of t (map type df))).
    + rewrite unique_counts_total. apply length_map.
    + intros t. cbn [type_entry snd TypeStats.count]. apply rows_of_type_count.
Qed.

End AggregatorMore.

Section AggregatorViews.

Import AnalyticsService.

Lemma unique_constant (t : string) (l : list string) :
  l <> [] -> Forall (fun x => x = t) l -> Series.unique l = [t].
Proof.
  intros Hne Hall. induction Hall as [|x l -> Hl IH]; [easy|].
  simpl. destruct l as [|y l]; [reflexivity|].
  rewrite IH by discriminate. simpl. now rewrite String.eqb_refl.
Qed.

Lemma rows_of_type_all (t : string) (df : list Equipment) :
  Forall (fun r => type r = t) df -> rows_of_type t df = df.
Proof.
  intros H. unfold rows_of_type. apply filter_all. intros r Hr.
  rewrite Forall_forall in H. rewrite (H r Hr). apply String.eqb_refl.
Qed.

(** X4.  When every row has the same type, the snapshot has one type
    with all the rows, and the statistics of its entry in
    [stats_by_type] are the global statistics of the snapshot. *)
Theorem single_type_stats (df : list Equipment) (t : string) :
  df <> [] -> Forall (fun r => type r = t) df ->
  let a := compute_analytics df in
  type_distribution a = [(t, total_count a)]
  /\ exists s, stats_by_type a = [(t, s)]
     /\ TypeStats.count s = total_count a
     /\ TypeStats.flowrate s
        = {| FieldStats.avg := avg_flowrate a; FieldStats.min := min_flowrate a;
             FieldStats.max := max_flowrate a; FieldStats.std := std_flowrate a |}
     /\ TypeStats.pressure s
        = {| FieldStats.avg := avg_pressure a; FieldStats.min := min_pressure a;
             FieldStats.max := max_pressure a; FieldStats.std := std_pressure a |}
     /\ TypeStats.temperature s
        = {| FieldStats.avg := avg_temperature a;
             FieldStats.min := min_temperature a;
             FieldStats.max := max_temperature a;
             FieldStats.std := std_temperature a |}.
Proof.
  intros Hne Hall a. subst a.
  assert (Htypes : Forall (fun x => x = t) (map type df))
    by (apply Forall_map; exact Hall).
  assert (Hu : Series.unique (map type df) = [t]).
  { apply unique_constant; [|easy]. destruct df; [easy | discriminate]. }
  assert (Hcount : Series.count_of t (map type df) = List.length df).
  { rewrite <- rows_of_type_count. now rewrite rows_of_type_all. }
  rewrite compute_analytics_type_distribution, compute_analytics_stats_by_type,
    compute_analytics_total_count.
  split.
  - unfold _compute_type_distribution, Series.value_counts.
    rewrite Hu. simpl. now rewrite Hcount.
  - unfold _compute_stats_by_type. rewrite Hu. cbn [map].
    unfold type_entry. rewrite (rows_of_type_all t df Hall).
    eexists. split; [reflexivity|].
    cbn [TypeStats.count TypeStats.flowrate TypeStats.pressure
         TypeStats.temperature].
    destruct df as [|r df']; [easy|]. repeat split.
Qed.

Lemma single_type_stats_witness :
  three_tenths <> []
  /\ type_distribution (compute_analytics three_tenths) = [("Pump", 3)].
Proof.
  assert (Hne : three_tenths <> []) by discriminate.
  split; [exact Hne|].
  refine (proj1 (single_type_stats three_tenths "Pump" Hne _)).
  repeat constructor.
Defined.

(** X5.  The summary view and the chart view of a computed snapshot
    agree: the summary lists the types of the rows, each once and in the
    order of the pie labels, its [total_count] is the number of rows and
    the sum of the pie data, and its two mappings are those of the
    snapshot. *)
Theorem summary_agrees_with_chart (round2 : float -> float)
    (df : list Equipment) :
  let a := compute_analytics df in
  let s := get_summary_response round2 a in
  exists c, get_chart_data a = Some c
  /\ Summary.equipment_types s = Pie.labels (pie_chart c)
  /\ Permutation (Summary.equipment_types s) (Bar.labels (bar_chart c))
  /\ NoDup (Summary.equipment_types s)
  /\ (forall t, In t (Summary.equipment_types s) <-> In t (map type df))
  /\ Summary.total_count s = List.length df
  /\ Summary.total_count s = list_sum (Pie.data (pie_chart c))
  /\ Summary.type_distribution s = type_distribution a
  /\ Summary.stats_by_type s = stats_by_type a.
Proof.
  intros a s. subst a s.
  unfold get_chart_data.
  rewrite compute_analytics_stats_by_type, stats_by_type_keys, !averages_by_type.
  eexists. split; [reflexivity|].
  cbn [get_summary_response Summary.equipment_types Summary.total_count
       Summary.type_distribution Summary.stats_by_type
       pie_chart bar_chart Pie.labels Pie.data Bar.labels].
  rewrite compute_analytics_type_distribution, compute_analytics_total_count,
    compute_analytics_stats_by_type.
  unfold _compute_type_distribution.
  split; [reflexivity|]. split; [apply value_counts_keys|].
  split.
  { eapply Permutation_NoDup; [symmetry; apply value_counts_keys|].
    apply unique_NoDup. }
  split.
  { intros t. split; intros H.
    - apply (proj1 (unique_In t _)).
      now apply (Permutation_in _ (value_counts_keys _)).
    - apply (Permutation_in _ (Permutation_sym (value_counts_keys _))).
      now apply (proj2 (unique_In t _)). }
  split; [reflexivity|]. split; [|split; reflexivity].
  rewrite value_counts_total. symmetry. apply length_map.
Qed.

Lemma count_of_perm (t : string) (l l' : list string) :
  Permutation l l' -> Series.count_of t l = Series.count_of t l'.
Proof.
  intros H. unfold Series.count_of. apply Permutation_length.
  now apply filter_perm.
Qed.

(** X6.  The type distribution, read as a mapping, does not depend on
    the order of the rows: two collections with the same rows in any
    order have the same [total_count], the same set of types and the
    same count for every type. *)
Theorem type_distribution_row_order (df df' : list Equipment) :
  Permutation df df' ->
  let a := compute_analytics df in
  let a' := compute_analytics df' in
  total_count a = total_count a'
  /\ Permutation (keys (type_distribution a)) (keys (type_distribution a'))
  /\ forall t, lookup t (type_distribution a) = lookup t (type_distribution a').
Proof.
  intros Hperm a a'. subst a a'.
  rewrite !compute_analytics_type_distribution, !compute_analytics_total_count.
  unfold _compute_type_distribution.
  assert (Htypes : Permutation (map type df) (map type df'))
    by now apply Permutation_map.
  split; [now apply Permutation_length|].
  assert (Hin : forall t, In t (map type df) <-> In t (map type df')).
  { intros t. split; apply Permutation_in; [easy | now symmetry]. }
  split.
  - rewrite !value_counts_keys. apply NoDup_Permutation; try apply unique_NoDup.
    intros t. split; intros H.
    + apply (proj2 (unique_In t _)), Hin. now apply (proj1 (unique_In t _)).
    + apply (proj2 (unique_In t _)), Hin. now apply (proj1 (unique_In t _)).
  - intros t. destruct (in_dec string_dec t (map type df)) as [Ht | Ht].
    + rewrite (value_counts_lookup _ _ Ht).
      rewrite (value_counts_lookup _ _ (proj1 (Hin t) Ht)).
      f_equal. now apply count_of_perm.
    + rewrite !lookup_None; [easy | |].
      * intros H. apply Ht, Hin, (proj1 (unique_In t _)).
        now apply (Permutation_in _ (value_counts_keys _)).
      * intros H. apply Ht, (proj1 (unique_In t _)).
        now apply (Permutation_in _ (value_counts_keys _)).
Qed.

Lemma type_distribution_row_order_witness :
  Permutation valve_then_pumps [pump_10; pump_20; valve_5]
  /\ lookup "Pump" (type_distribution (compute_analytics valve_then_pumps))
     = lookup "Pump"
         (type_distribution (compute_analytics [pump_10; pump_20; valve_5])).
Proof.
  assert (H : Permutation valve_then_pumps [pump_10; pump_20; valve_5]).
  { unfold valve_then_pumps.
    apply (Permutation_cons_app [pump_10; pump_20] [] valve_5).
    rewrite app_nil_r. apply Permutation_refl. }
  split; [exact H|].
  exact (proj2 (proj2 (type_distribution_row_order _ _ H)) "Pump").
Defined.

End AggregatorViews.

(* ================================================================= *)
(** ** Frames and [_clean_data] *)

Section FrameFacts.

Import Frame.

Lemma position_In (col : string) (cols : list string) :
  In col cols -> exists i, position col cols = Some i.
Proof.
  induction cols as [|c cols IH]; simpl; [easy|].
  destruct (String.eqb_spec col c) as [-> | Hne]; [eauto|].
  intros [-> | Hin]; [easy|]. destruct (IH Hin) as [i ->]. simpl. eauto.
Qed.

Lemma position_nth_error (col : string) (cols : list string) (i : nat) :
  position col cols = Some i -> nth_error cols i = Some col.
Proof.
  revert i. induction cols as [|c cols IH]; simpl; intros i; [easy|].
  destruct (String.eqb_spec col c) as [-> | Hne].
  - now intros [= <-].
  - destruct (position col cols) as [j|]; simpl; [|easy].
    intros [= <-]. simpl. now apply IH.
Qed.

Lemma position_inj (a b : string) (cols : list string) (i : nat) :
  position a cols = Some i -> position b cols = Some i -> a = b.
Proof.
  intros Ha Hb. apply position_nth_error in Ha, Hb. congruence.
Qed.

Lemma position_lt (col : string) (cols : list string) (i : nat) :
  position col cols = Some i -> i < List.length cols.
Proof.
  intros H. apply position_nth_error in H. apply nth_error_Some. congruence.
Qed.

Lemma length_update_at (i : nat) (f : cell -> cell) (row : list cell) :
  List.length (update_at i f row) = List.length row.
Proof.
  revert i. induction row as [|c row IH]; intros [|i]; simpl; auto.
Qed.

Lemma nth_error_update_at (i j : nat) (f : cell -> cell) (row : list cell) :
  nth_error (update_at j f row) i
  = if i =? j then option_map f (nth_error row i) else nth_error row i.
Proof.
  revert i j. induction row as [|c row IH]; intros i j.
  - destruct i, j; simpl; try easy; now destruct (i =? j).
  - destruct i, j; simpl; try easy; apply IH.
Qed.

Lemma at_position_nth_error (i : nat) (row : list cell) :
  at_position i row
  = match nth_error row i with Some c => c | None => missing end.
Proof.
  unfold at_position. revert i. induction row as [|c row IH]; intros [|i];
    simpl; auto.
Qed.

Lemma map_column_update_cell (col : string) (f : cell -> cell) (df : DataFrame) :
  map_column col f df
  = {| columns := columns df;
       rows := map (update_cell (columns df) col f) (rows df) |}.
Proof.
  unfold map_column, update_cell. destruct (position col (columns df)); [easy|].
  rewrite map_id. now destruct df.
Qed.

Lemma length_update_cell (cols : list string) (col : string) (f : cell -> cell)
    (row : list cell) :
  List.length (update_cell cols col f row) = List.length row.
Proof.
  unfold update_cell. destruct (position col cols); [|easy].
  apply length_update_at.
Qed.

Lemma nth_error_update_cell_other (cols : list string) (col : string)
    (f : cell -> cell) (row : list cell) (i : nat) :
  position col cols <> Some i ->
  nth_error (update_cell cols col f row) i = nth_error row i.
Proof.
  unfold update_cell. destruct (position col cols) as [j|]; [|easy].
  intros H. rewrite nth_error_update_at.
  destruct (Nat.eqb_spec i j) as [-> | _]; [now exfalso | easy].
Qed.

Lemma nth_error_update_cell_same (cols : list string) (col : string)
    (f : cell -> cell) (row : list cell) (i : nat) :
  position col cols = Some i ->
  nth_error (update_cell cols col f row) i = option_map f (nth_error row i).
Proof.
  unfold update_cell. intros ->. rewrite nth_error_update_at.
  now rewrite Nat.eqb_refl.
Qed.

End FrameFacts.

Section CleanData.

Import Frame CSVParserService Ingest.

Variable to_numeric_text : string -> option float.
Variable float_str : float -> string.

Abbreviation _clean_data := (_clean_data to_numeric_text float_str).
Abbreviation clean_row := (clean_row to_numeric_text float_str).

Lemma clean_data_rows (df : DataFrame) :
  _clean_data df
  = {| columns := columns df;
       rows := map (clean_row (columns df)) (filter has_value (rows df)) |}.
Proof.
  unfold CSVParserService._clean_data. cbn [fold_left].
  rewrite !map_column_update_cell. cbn [columns rows dropna_all].
  now rewrite !map_map.
Qed.

Lemma Forall2_map_r {A B : Type} (P : A -> B -> Prop) (f : A -> B) (l : list A) :
  (forall a, In a l -> P a (f a)) -> Forall2 P l (map f l).
Proof.
  induction l as [|a l IH]; simpl; intros H; constructor.
  - apply H. now left.
  - apply IH. intros; apply H; now right.
Qed.

(** X7.  [_clean_data] keeps the column labels, keeps exactly the rows
    with some value, in their order, and changes no row's length and no
    cell outside the five columns it rewrites. *)
Theorem clean_data_shape (df : DataFrame) :
  columns (_clean_data df) = columns df
  /\ List.length (rows (_clean_data df))
     = List.length (filter has_value (rows df))
  /\ List.length (rows (_clean_data df)) <= List.length (rows df)
  /\ Forall2
       (fun row row' =>
          List.length row' = List.length row
          /\ forall i,
               (forall col, In col cleaned_columns ->
                            position col (columns df) <> Some i) ->
               nth_error row' i = nth_error row i)
       (filter has_value (rows df)) (rows (_clean_data df)).
Proof.
  rewrite clean_data_rows. cbn [columns rows]. rewrite length_map.
  split; [reflexivity|]. split; [reflexivity|].
  split; [apply filter_length_le|].
  apply Forall2_map_r. intros row _. unfold clean_row.
  split.
  - now rewrite !length_update_cell.
  - intros i Hi.
    rewrite !nth_error_update_cell_other; [reflexivity | | | | |];
      apply Hi; simpl; auto 6.
Qed.

Lemma to_numeric_number (c : cell) :
  is_number (to_numeric to_numeric_text c) = true.
Proof.
  destruct c as [x | n | s]; simpl; try easy.
  now destruct (to_numeric_text s).
Qed.

Lemma number_at (o : option cell) :
  is_number (match option_map (to_numeric to_numeric_text) o with
             | Some c => c
             | None => missing
             end) = true.
Proof. destruct o; simpl; [apply to_numeric_number | easy]. Qed.

Lemma position_other (cols : list string) (a b : string) (i : nat) :
  a <> b -> position a cols = Some i -> position b cols <> Some i.
Proof. intros Hab Ha Hb. apply Hab. exact (position_inj _ _ _ _ Ha Hb). Qed.

Lemma clean_row_number (cols : list string) (row : list cell) (col : string)
    (i : nat) :
  In col measurements -> position col cols = Some i ->
  is_number (at_position i (clean_row cols row)) = true.
Proof.
  intros Hcol Hpos. rewrite at_position_nth_error. unfold clean_row.
  simpl in Hcol. destruct Hcol as [<- | [<- | [<- | []]]].
  - rewrite (nth_error_update_cell_other _ "Temperature")
      by (apply (position_other _ "Flowrate"); [discriminate | easy]).
    rewrite (nth_error_update_cell_other _ "Pressure")
      by (apply (position_other _ "Flowrate"); [discriminate | easy]).
    rewrite (nth_error_update_cell_same _ "Flowrate") by easy.
    apply number_at.
  - rewrite (nth_error_update_cell_other _ "Temperature")
      by (apply (position_other _ "Pressure"); [discriminate | easy]).
    rewrite (nth_error_update_cell_same _ "Pressure") by easy.
    apply number_at.
  - rewrite (nth_error_update_cell_same _ "Temperature") by easy.
    apply number_at.
Qed.

End CleanData.

(* ================================================================= *)
(** ** The verdict of [parse_file] on a file that is read *)

Section Returns.

Import CSVParserService.

Lemma returns_ret {A : Type} (a : A) : returns (ret a).
Proof. intros p. now exists a, p. Qed.

Lemma returns_bind {A B : Type} (m : M A) (k : A -> M B) :
  returns m -> (forall a, returns (k a)) -> returns (bind m k).
Proof.
  intros Hm Hk p. destruct (Hm p) as (a & p1 & E). unfold bind. rewrite E.
  apply Hk.
Qed.

Lemma returns_found {A B : Type} (what : string) (o : option A) (a : A)
    (k : A -> M B) :
  o = Some a -> returns (k a) -> returns (bind (found what o) k).
Proof. intros -> Hk p. unfold bind, found, ret. apply Hk. Qed.

Lemma returns_add_warning (msg : string) : returns (add_warning msg).
Proof. intros p. unfold add_warning. eauto. Qed.

Lemma returns_add_error (msg : string) : returns (add_error msg).
Proof. intros p. unfold add_error. eauto. Qed.

Lemma returns_for_each {A : Type} (body : A -> M unit) (l : list A) :
  (forall x, In x l -> returns (body x)) -> returns (for_each body l).
Proof.
  induction l as [|x l IH]; simpl; intros H; [apply returns_ret|].
  apply returns_bind; [apply H; now left|].
  intros _. apply IH. intros; apply H; now right.
Qed.

Lemma comprehension_Some {A B : Type} (f : A -> option B) (l : list A) :
  (forall x, In x l -> exists b, f x = Some b) ->
  exists bs, comprehension f l = Some bs.
Proof.
  induction l as [|x l IH]; simpl; intros H; [eauto|].
  destruct (H x (or_introl eq_refl)) as [b ->].
  destruct IH as [bs ->]; [intros; apply H; now right|]. eauto.
Qed.

Lemma any_negative_numbers (cells : list cell) :
  Forall (fun c => is_number c = true) cells ->
  exists b, Frame.any_negative cells = Some b.
Proof.
  intros H. unfold Frame.any_negative.
  destruct (comprehension_Some Frame.negative cells) as [bs ->]; [|simpl; eauto].
  intros c Hc. rewrite Forall_forall in H. specialize (H c Hc).
  destruct c; simpl; eauto. discriminate.
Qed.

(** [_validate_data] returns on a frame that has the required columns
    and only numbers in the three measurement columns. *)
Lemma validate_data_returns (df : DataFrame) :
  incl REQUIRED_COLUMNS (columns df) ->
  (forall col i row, In col Ingest.measurements ->
     Frame.position col (columns df) = Some i -> In row (rows df) ->
     is_number (Frame.at_position i row) = true) ->
  returns (_validate_data df).
Proof.
  intros Hcols Hnum. unfold _validate_data.
  destruct (Frame.empty df).
  { apply returns_bind; [apply returns_add_error | intros; apply returns_ret]. }
  assert (Hcol : forall col, In col REQUIRED_COLUMNS ->
                   exists cells, Frame.column col df = Some cells).
  { intros col Hc. unfold Frame.column.
    destruct (position_In col (columns df) (Hcols col Hc)) as [i ->].
    simpl. eauto. }
  destruct (comprehension_Some
              (fun col => option_map (fun cells => (col, Frame.null_count cells))
                                     (Frame.column col df))
              REQUIRED_COLUMNS) as [counts Hcounts].
  { intros col Hc. destruct (Hcol col Hc) as [cells ->]. simpl. eauto. }
  apply (returns_found _ _ counts); [exact Hcounts|].
  apply returns_bind.
  { apply returns_for_each. intros; apply returns_add_warning. }
  intros _.
  assert (Hmeas : incl Ingest.measurements REQUIRED_COLUMNS)
    by (intros c Hc; simpl in *; tauto).
  destruct (comprehension_Some (fun col => Frame.position col (columns df))
              Ingest.measurements) as [ps Hps].
  { intros col Hc. apply position_In, Hcols, Hmeas, Hc. }
  eapply returns_found.
  { unfold Frame.dropna_subset, Frame.positions.
    change ["Flowrate"; "Pressure"; "Temperature"] with Ingest.measurements.
    rewrite Hps. reflexivity. }
  apply returns_bind.
  { destruct (0 <? _); [apply returns_add_warning | apply returns_ret]. }
  intros _. destruct (Frame.empty _).
  { apply returns_bind; [apply returns_add_error | intros; apply returns_ret]. }
  apply returns_bind; [|intros; apply returns_ret].
  apply returns_for_each. intros col Hc.
  change ["Flowrate"; "Pressure"; "Temperature"] with Ingest.measurements in Hc.
  destruct (position_In col (columns df) (Hcols col (Hmeas col Hc))) as [i Hi].
  eapply returns_found.
  { unfold Frame.column. rewrite Hi. reflexivity. }
  destruct (any_negative_numbers (map (Frame.at_position i) (rows df)))
    as [neg Hneg].
  { apply Forall_map, Forall_forall. intros row Hrow. now apply (Hnum col). }
  eapply returns_found; [exact Hneg|].
  destruct neg; [apply returns_add_warning | apply returns_ret].
Qed.

(** When [_validate_data] returns [False], no row of the frame has its
    three measurements. *)
Lemma validate_data_false (df : DataFrame) (p p' : parser) :
  _validate_data df p = (inr false, p') ->
  forall row, In row (rows df) ->
  Ingest.complete Ingest.measurements df row = false.
Proof.
  unfold _validate_data. destruct (Frame.empty df) eqn:Eempty.
  { intros _ row Hrow. unfold Frame.empty in Eempty.
    apply orb_true_iff in Eempty. destruct Eempty as [E | E].
    - apply Nat.eqb_eq in E. unfold Ingest.complete, Frame.positions.
      destruct (columns df); [reflexivity | discriminate].
    - apply Nat.eqb_eq in E. now destruct (rows df). }
  intros H.
  apply bind_inv in H. destruct H as [(e & _ & [=]) | (counts & p1 & _ & H)].
  apply bind_inv in H. destruct H as [(e & _ & [=]) | ([] & p2 & _ & H)].
  apply bind_inv in H. destruct H as [(e & _ & [=]) | (df_clean & p3 & H3 & H)].
  apply found_inv in H3. destruct H3 as [_ Hclean].
  apply bind_inv in H. destruct H as [(e & _ & [=]) | ([] & p4 & _ & H)].
  destruct (Frame.empty df_clean) eqn:Eclean.
  2:{ apply bind_inv in H. destruct H as [(e & _ & [=]) | ([] & p5 & _ & H)].
      discriminate H. }
  intros row Hrow. unfold Ingest.complete.
  unfold Frame.dropna_subset in Hclean.
  change ["Flowrate"; "Pressure"; "Temperature"] with Ingest.measurements in Hclean.
  destruct (Frame.positions Ingest.measurements df) as [ps|]; [|reflexivity].
  injection Hclean as <-. unfold Frame.empty in Eclean, Eempty.
  cbn [columns rows] in Eclean.
  apply orb_false_iff in Eempty. destruct Eempty as [Ecols _].
  rewrite Ecols in Eclean. simpl in Eclean. apply Nat.eqb_eq in Eclean.
  destruct (Frame.complete_at ps row) eqn:E; [|reflexivity].
  assert (Hin : In row (filter (Frame.complete_at ps) (rows df)))
    by (apply filter_In; auto).
  destruct (filter (Frame.complete_at ps) (rows df)); [easy | discriminate].
Qed.

End Returns.

Section ParseFileRead.

Import CSVParserService Ingest.

Variable to_numeric_text : string -> option float.
Variable float_str : float -> string.

Abbreviation parse_file := (parse_file to_numeric_text float_str).
Abbreviation _clean_data := (_clean_data to_numeric_text float_str).

Lemma no_absent_column (df : DataFrame) (c : string) :
  absent_columns df = [] -> In c REQUIRED_COLUMNS -> absent df c = false.
Proof.
  intros Habs Hc. destruct (absent df c) eqn:E; [|easy].
  assert (In c (absent_columns df))
    by (unfold absent_columns; apply filter_In; auto).
  rewrite Habs in *. easy.
Qed.

Lemma cleaned_frame_columns (df : DataFrame) :
  absent_columns df = [] ->
  incl REQUIRED_COLUMNS (columns (_clean_data (validated df))).
Proof.
  intros Habs c Hc. rewrite clean_data_rows. cbn [columns].
  destruct (check_columns_run df) as (_ & _ & Hin & _).
  apply Hin; [easy | now apply no_absent_column].
Qed.

Lemma cleaned_frame_returns (df : DataFrame) :
  absent_columns df = [] ->
  returns (_validate_data (_clean_data (validated df))).
Proof.
  intros Habs. apply validate_data_returns.
  - now apply cleaned_frame_columns.
  - intros col i row Hcol Hpos Hrow. rewrite clean_data_rows in Hpos, Hrow.
    cbn [columns rows] in Hpos, Hrow. apply in_map_iff in Hrow.
    destruct Hrow as (row0 & <- & _).
    now apply (clean_row_number to_numeric_text float_str _ _ col).
Qed.

Lemma renamed_fields (cols : list string) :
  incl REQUIRED_COLUMNS cols ->
  incl record_fields
       (map (fun c => match lookup c COLUMN_MAPPING with
                      | Some c' => c'
                      | None => c
                      end) cols).
Proof.
  intros H f Hf. apply in_map_iff. simpl in Hf.
  destruct Hf as [<- | [<- | [<- | [<- | [<- | []]]]]].
  - exists "Equipment Name". split; [reflexivity | apply H; simpl; auto].
  - exists "Type". split; [reflexivity | apply H; simpl; auto].
  - exists "Flowrate". split; [reflexivity | apply H; simpl; auto].
  - exists "Pressure". split; [reflexivity | apply H; simpl; auto 6].
  - exists "Temperature". split; [reflexivity | apply H; simpl; auto 6].
Qed.

(** X9.  On a file that [pd.read_csv] reads, [parse_file] succeeds
    exactly when no required column is absent and some row of the
    cleaned frame has its three measurements.  Its errors are then none,
    and otherwise the one error of the missing columns or one of the two
    errors of a file without valid rows: no lookup of its own raises, so
    it never reports an unexpected error.  On success it returns the
    cleaned frame with its columns renamed, among them the five field
    names. *)
Theorem parse_file_read_verdict (utf8 : bool) (df : DataFrame) (self : parser) :
  let result := parse_file (Content utf8 (inr df)) self in
  let cleaned := _clean_data (validated df) in
  let success := snd (fst result) in
  let errs := get_errors (snd result) in
  (success = true <->
     absent_columns df = []
     /\ exists row, In row (rows cleaned)
                    /\ complete measurements cleaned row = true)
  /\ (success = true -> errs = [])
  /\ (absent_columns df <> [] ->
        errs = [missing_columns_error (absent_columns df)])
  /\ (success = false -> absent_columns df = [] ->
        errs = ["No valid data rows found in the file."]
        \/ errs = ["No valid data rows after cleaning."])
  /\ (success = true ->
        fst (fst result) = Frame.rename COLUMN_MAPPING cleaned
        /\ incl record_fields (columns (fst (fst result)))).
Proof.
  intros result cleaned success errs. subst result cleaned success errs.
  unfold CSVParserService.parse_file, get_errors.
  rewrite parse_body_content. cbv zeta.
  set (pw := if utf8 then _ else _).
  assert (Hpw : errors pw = []) by (subst pw; now destruct utf8).
  destruct (absent_columns df) as [|c cs] eqn:Habs.
  2:{ cbn [fst snd errors]. rewrite Hpw.
      repeat split; try easy; try (intros [H _]; discriminate H). }
  destruct (cleaned_frame_returns df Habs pw) as (b & p' & E).
  rewrite E.
  pose proof (validate_data_verdict _ _ _ _ E) as Hv. cbn beta iota in Hv.
  destruct b; cbn [fst snd].
  - destruct Hv as [Herr Hrow]. rewrite Herr, Hpw.
    repeat split; try easy.
    all: try (cbn [Frame.rename columns]; apply renamed_fields;
              now apply cleaned_frame_columns).
  - pose proof (validate_data_false _ _ _ E) as Hnone.
    rewrite Hpw in Hv. repeat split; try easy.
    all: try (intros (_ & row & Hrow & Hc); rewrite (Hnone row Hrow) in Hc;
              discriminate).
Qed.

End ParseFileRead.

(* ================================================================= *)
(** ** The records of [to_equipment_dicts] *)

Section RecordFacts.

Import Records.

Lemma dict_set_fresh {V : Type} (k : string) (v : V) (d : list (string * V)) :
  ~ In k (keys d) -> dict_set k v d = d ++ [(k, v)].
Proof.
  induction d as [|[k' v'] d IH]; simpl; intros H; [easy|].
  destruct (String.eqb_spec k k') as [-> | _]; [exfalso; apply H; now left|].
  rewrite IH; [easy|]. intros Hin. apply H. now right.
Qed.

Lemma dict_set_keys {V : Type} (k k0 : string) (v : V) (d : list (string * V)) :
  In k0 (keys (dict_set k v d)) <-> k0 = k \/ In k0 (keys d).
Proof.
  induction d as [|[k' v'] d IH]; simpl; [intuition|].
  destruct (String.eqb_spec k k') as [-> | Hne]; simpl.
  - intuition.
  - rewrite IH. intuition.
Qed.

Lemma record_keys (kvs : list (string * cell)) :
  forall d k,
  In k (keys (fold_left (fun d kv => dict_set (fst kv) (snd kv) d) kvs d))
  <-> In k (keys d) \/ In k (map fst kvs).
Proof.
  induction kvs as [|[k' v'] kvs IH]; intros d k; simpl; [intuition|].
  rewrite IH, dict_set_keys. intuition.
Qed.

Lemma record_fresh (kvs : list (string * cell)) :
  forall d,
  NoDup (keys d ++ map fst kvs) ->
  fold_left (fun d kv => dict_set (fst kv) (snd kv) d) kvs d = d ++ kvs.
Proof.
  induction kvs as [|[k v] kvs IH]; intros d Hnd; simpl; [now rewrite app_nil_r|].
  simpl in Hnd. rewrite dict_set_fresh.
  - rewrite IH; [now rewrite <- app_assoc|].
    unfold keys. rewrite map_app. simpl. fold (keys d).
    now rewrite <- app_assoc.
  - apply NoDup_remove_2 in Hnd. intros Hin. apply Hnd, in_or_app. now left.
Qed.

Lemma lookup_In_keys {V : Type} (k : string) (d : list (string * V)) :
  In k (keys d) -> exists v, lookup k d = Some v.
Proof.
  induction d as [|[k' v] d IH]; simpl; [easy|].
  destruct (String.eqb_spec k k'); [eauto|].
  intros [<- | H]; [easy | now apply IH].
Qed.

Lemma combine_fst (cols : list string) (row : list cell) :
  List.length row = List.length cols -> map fst (combine cols row) = cols.
Proof.
  revert row. induction cols as [|c cols IH]; intros [|x row]; simpl; try easy.
  intros [= H]. now rewrite IH.
Qed.

Lemma lookup_combine (cols : list string) (row : list cell) (col : string)
    (i : nat) :
  List.length row = List.length cols ->
  Frame.position col cols = Some i ->
  lookup col (combine cols row) = Some (Frame.at_position i row).
Proof.
  revert row i. induction cols as [|c cols IH]; intros [|x row] i; simpl;
    try easy.
  intros [= Hlen]. destruct (String.eqb_spec col c) as [-> | _].
  - now intros [= <-].
  - destruct (Frame.position col cols) as [j|] eqn:E; simpl; [|easy].
    intros [= <-]. unfold Frame.at_position. simpl.
    now apply (IH row j).
Qed.

(** X10.  On a frame with distinct column labels and one cell per
    column in every row, [to_equipment_dicts] returns one record per
    row, in order; the keys of each record are the column labels, in
    order, and the value under a label is the cell of the row in that
    column. *)
Theorem to_equipment_dicts_lookup (df : DataFrame) :
  NoDup (columns df) -> rectangular df ->
  List.length (to_equipment_dicts df) = List.length (rows df)
  /\ Forall2
       (fun row record =>
          keys record = columns df
          /\ forall col i, Frame.position col (columns df) = Some i ->
               lookup col record = Some (Frame.at_position i row))
       (rows df) (to_equipment_dicts df).
Proof.
  intros Hnd Hrect. unfold to_equipment_dicts. rewrite length_map.
  split; [reflexivity|]. apply Forall2_map_r. intros row Hrow.
  unfold rectangular in Hrect. rewrite Forall_forall in Hrect.
  specialize (Hrect row Hrow).
  assert (E : record_of (columns df) row = combine (columns df) row).
  { unfold record_of. rewrite record_fresh; [reflexivity|].
    simpl. now rewrite combine_fst. }
  rewrite E. split.
  - now apply combine_fst.
  - intros col i. now apply lookup_combine.
Qed.

Lemma to_equipment_dicts_lookup_witness :
  NoDup (columns Ingest.blank_flowrate) /\ rectangular Ingest.blank_flowrate
  /\ List.length (to_equipment_dicts Ingest.blank_flowrate) = 2.
Proof.
  assert (Hnd : NoDup (columns Ingest.blank_flowrate)).
  { simpl. repeat constructor; simpl; intuition discriminate. }
  assert (Hrect : rectangular Ingest.blank_flowrate) by (repeat constructor).
  split; [exact Hnd|]. split; [exact Hrect|].
  exact (proj1 (to_equipment_dicts_lookup Ingest.blank_flowrate Hnd Hrect)).
Defined.

Lemma record_has_columns (cols : list string) (row : list cell) (col : string) :
  List.length row = List.length cols -> In col cols ->
  exists c, lookup col (record_of cols row) = Some c.
Proof.
  intros Hlen Hin. apply lookup_In_keys. unfold record_of.
  apply record_keys. right. now rewrite combine_fst.
Qed.

End RecordFacts.

Section UploadRecords.

Import CSVParserService Ingest Records.

Variable to_numeric_text : string -> option float.
Variable float_str : float -> string.

Abbreviation parse_file := (parse_file to_numeric_text float_str).
Abbreviation _clean_data := (_clean_data to_numeric_text float_str).

(** X11.  When [parse_file] succeeds on a frame with one cell per column
    in every row, the records the view builds its Equipment objects from
    are one per row of the frame with some value, and each of them has
    the keys [name], [type], [flowrate], [pressure] and [temperature]:
    reading these five fields from a record never fails. *)
Theorem parsed_records_have_fields (utf8 : bool) (df : DataFrame)
    (self : parser) :
  rectangular df ->
  let result := parse_file (Content utf8 (inr df)) self in
  snd (fst result) = true ->
  let records := to_equipment_dicts (fst (fst result)) in
  List.length records = List.length (filter has_value (rows df))
  /\ forall record field, In record records -> In field record_fields ->
       exists c, lookup field record = Some c.
Proof.
  intros Hrect result Hok records. subst result records.
  unfold CSVParserService.parse_file in *.
  rewrite parse_body_content in *. cbv zeta in *.
  set (pw := if utf8 then _ else _) in *.
  destruct (absent_columns df) as [|c cs] eqn:Habs; [|discriminate Hok].
  destruct (check_columns_run df) as (_ & Hrows & _ & Hcan).
  fold (validated df) in Hrows, Hcan.
  destruct (_validate_data _ pw) as [[e | [|]] p'] eqn:E;
    [destruct e; discriminate Hok | | discriminate Hok].
  cbn [fst snd]. unfold to_equipment_dicts.
  cbn [Frame.rename columns rows]. rewrite clean_data_rows. cbn [columns rows].
  rewrite Hrows, !length_map. split; [reflexivity|].
  intros record field Hrec Hfield.
  apply in_map_iff in Hrec. destruct Hrec as (row' & <- & Hrow').
  apply in_map_iff in Hrow'. destruct Hrow' as (row & <- & Hrow).
  apply filter_In in Hrow. destruct Hrow as [Hrow _].
  unfold rectangular in Hrect. rewrite Forall_forall in Hrect.
  apply record_has_columns.
  - rewrite length_map. unfold clean_row. rewrite !length_update_cell.
    rewrite (Hrect row Hrow). now apply Forall2_length in Hcan.
  - apply renamed_fields; [|exact Hfield].
    pose proof (cleaned_frame_columns to_numeric_text float_str df Habs) as H.
    rewrite clean_data_rows in H. exact H.
Qed.

End UploadRecords.

Lemma parsed_records_have_fields_witness :
  Records.rectangular Ingest.blank_flowrate
  /\ List.length
       (Records.to_equipment_dicts
          (fst (fst (CSVParserService.parse_file Ingest.decimal_text
                       Ingest.nan_str
                       (CSVParserService.Content true (inr Ingest.blank_flowrate))
                       {| CSVParserService.errors := [];
                          CSVParserService.warnings := [] |}))))
     = 2.
Proof.
  assert (Hrect : Records.rectangular Ingest.blank_flowrate) by (repeat constructor).
  split; [exact Hrect|].
  exact (proj1 (parsed_records_have_fields Ingest.decimal_text Ingest.nan_str
                  true Ingest.blank_flowrate
                  {| CSVParserService.errors := [];
                     CSVParserService.warnings := [] |}
                  Hrect eq_refl)).
Defined.

(* ================================================================= *)
(** ** Further properties of the dataset endpoints *)

Section RetentionMore.

Import DatasetViewSet.

Lemma remove_old_files (olds : list Dataset.t) (s : Store) :
  files (fold_left remove_old olds s)
  = filter (fun f =>
              negb (existsb (fun o => negb (String.eqb (Dataset.file o) "")
                                      && String.eqb f (Dataset.file o)) olds))
           (files s).
Proof.
  revert s. induction olds as [|o olds IH]; intros s; simpl.
  - induction (files s); simpl; congruence.
  - rewrite IH. unfold remove_old, delete, file_delete.
    destruct (String.eqb (Dataset.file o) ""); simpl; [reflexivity|].
    induction (files s) as [|f l IHl]; simpl; [reflexivity|].
    destruct (String.eqb f (Dataset.file o)); simpl; [exact IHl|].
    destruct (existsb _ olds); simpl; now rewrite IHl.
Qed.

Lemma skipn_short {A : Type} (n : nat) (l : list A) :
  List.length l <= n -> skipn n l = [].
Proof. intros H. now apply skipn_all2. Qed.

(** The store after the enforcement, in both of its branches. *)
Lemma enforce_store (max_datasets user : nat) (s : Store) :
  let removed :=
    skipn max_datasets
          (order_by_uploaded_at_desc (filter_uploaded_by user (datasets s))) in
  _enforce_dataset_limit max_datasets user s = fold_left remove_old removed s.
Proof.
  intros removed. subst removed. unfold _enforce_dataset_limit.
  destruct (Nat.ltb_spec max_datasets
              (List.length (order_by_uploaded_at_desc
                              (filter_uploaded_by user (datasets s)))))
    as [_ | Hle]; [reflexivity|].
  now rewrite skipn_short.
Qed.

Lemma listed_self (olds : list Dataset.t) (d : Dataset.t) :
  In d olds -> existsb (fun o => Dataset.id d =? Dataset.id o) olds = true.
Proof.
  intros H. apply existsb_exists. exists d. split; [easy | apply Nat.eqb_refl].
Qed.

Lemma enforce_count (max_datasets user : nat) (s : Store) :
  List.length
    (filter_uploaded_by user
       (datasets (_enforce_dataset_limit max_datasets user s)))
  <= max_datasets.
Proof.
  rewrite enforce_store. cbv zeta. rewrite remove_old_datasets.
  set (mine := filter_uploaded_by user (datasets s)).
  set (sorted := order_by_uploaded_at_desc mine).
  set (keep := fun d => negb (existsb _ (skipn max_datasets sorted))).
  unfold filter_uploaded_by. rewrite filter_comm. fold (filter_uploaded_by user (datasets s)).
  fold mine.
  rewrite (Permutation_length
             (filter_perm keep _ _ (Permutation_sym (order_by_perm mine)))).
  fold sorted. rewrite <- (firstn_skipn max_datasets sorted) at 1.
  rewrite filter_app, (filter_none keep (skipn max_datasets sorted)).
  - rewrite app_nil_r.
    etransitivity; [apply filter_length_le|]. rewrite length_firstn. lia.
  - intros d Hd. subst keep. cbv beta. now rewrite listed_self.
Qed.

(** X12.  Enforcing the limit twice is enforcing it once. *)
Theorem enforce_dataset_limit_idempotent (max_datasets user : nat) (s : Store) :
  _enforce_dataset_limit max_datasets user
    (_enforce_dataset_limit max_datasets user s)
  = _enforce_dataset_limit max_datasets user s.
Proof.
  set (s' := _enforce_dataset_limit max_datasets user s).
  pose proof (enforce_count max_datasets user s) as Hle. fold s' in Hle.
  unfold _enforce_dataset_limit at 1.
  rewrite (Permutation_length (order_by_perm _)).
  destruct (Nat.ltb_spec max_datasets
              (List.length (filter_uploaded_by user (datasets s'))));
    [lia | reflexivity].
Qed.

Lemma filter_ext_in' {A : Type} (f g : A -> bool) (l : list A) :
  (forall x, In x l -> f x = g x) -> filter f l = filter g l.
Proof.
  induction l as [|x l IH]; simpl; intros H; [easy|].
  rewrite (H x) by now left. rewrite IH; [easy|]. intros; apply H; now right.
Qed.

(** X13.  On a table with unique primary keys the enforcement for one
    user leaves the datasets of every other user as they are, in the
    same order, and the table it leaves is the former table without some
    rows, in the same order. *)
Theorem enforce_dataset_limit_other_users (max_datasets user : nat) (s : Store) :
  NoDup (map Dataset.id (datasets s)) ->
  let s' := _enforce_dataset_limit max_datasets user s in
  (exists keep, datasets s' = filter keep (datasets s))
  /\ forall other, other <> user ->
       filter_uploaded_by other (datasets s')
       = filter_uploaded_by other (datasets s).
Proof.
  intros Hids s'. subst s'. rewrite enforce_store. cbv zeta.
  rewrite remove_old_datasets.
  set (mine := filter_uploaded_by user (datasets s)).
  set (olds := skipn max_datasets (order_by_uploaded_at_desc mine)).
  split; [eauto|]. intros other Hother.
  unfold filter_uploaded_by at 1. rewrite filter_comm.
  fold (filter_uploaded_by other (datasets s)).
  apply filter_all. intros d Hd. apply filter_In in Hd. destruct Hd as [Hd Hown].
  apply Nat.eqb_eq in Hown. apply negb_true_iff.
  destruct (existsb _ olds) eqn:E; [|reflexivity]. exfalso.
  assert (Holds : incl olds (datasets s)).
  { intros o Ho. assert (Hm : In o mine).
    { apply (Permutation_in _ (order_by_perm mine)).
      rewrite <- (firstn_skipn max_datasets (order_by_uploaded_at_desc mine)).
      apply in_or_app. now right. }
    now apply filter_In in Hm. }
  apply (listed_id olds (datasets s) d Hids Holds Hd) in E.
  assert (Hm : In d mine).
  { apply (Permutation_in _ (order_by_perm mine)).
    rewrite <- (firstn_skipn max_datasets (order_by_uploaded_at_desc mine)).
    apply in_or_app. now right. }
  apply filter_In in Hm. destruct Hm as [_ Hm]. apply Nat.eqb_eq in Hm. congruence.
Qed.

Lemma enforce_dataset_limit_other_users_witness :
  NoDup (map Dataset.id (datasets four_uploads))
  /\ filter_uploaded_by 8 (datasets (_enforce_dataset_limit 2 7 four_uploads))
     = filter_uploaded_by 8 (datasets four_uploads).
Proof.
  assert (H : NoDup (map Dataset.id (datasets four_uploads))).
  { simpl. repeat constructor; simpl; intuition discriminate. }
  split; [exact H|].
  refine (proj2 (enforce_dataset_limit_other_users 2 7 four_uploads H) 8 _).
  discriminate.
Defined.

(** X14.  The enforcement deletes from storage the file of every dataset
    it removes that has one, and no other file: a stored file stays
    exactly when no removed dataset with a file names it. *)
Theorem enforce_dataset_limit_files (max_datasets user : nat) (s : Store)
    (f : string) :
  let removed :=
    skipn max_datasets
          (order_by_uploaded_at_desc (filter_uploaded_by user (datasets s))) in
  In f (files (_enforce_dataset_limit max_datasets user s))
  <-> In f (files s)
      /\ forall o, In o removed -> Dataset.file o <> "" -> f <> Dataset.file o.
Proof.
  intros removed. rewrite enforce_store. fold removed.
  rewrite remove_old_files, filter_In.
  split; intros [Hin H]; (split; [exact Hin|]).
  - intros o Ho Hfile Heq. apply negb_true_iff in H.
    assert (existsb (fun o => negb (String.eqb (Dataset.file o) "")
                              && String.eqb f (Dataset.file o)) removed = true);
      [|congruence].
    apply existsb_exists. exists o. split; [easy|].
    apply andb_true_iff. split.
    + apply negb_true_iff. now apply String.eqb_neq.
    + now apply String.eqb_eq.
  - apply negb_true_iff. destruct (existsb _ removed) eqn:E; [|reflexivity].
    exfalso. apply existsb_exists in E. destruct E as (o & Ho & Hb).
    apply andb_true_iff in Hb. destruct Hb as [Hfile Heq].
    apply negb_true_iff, String.eqb_neq in Hfile. apply String.eqb_eq in Heq.
    exact (H o Ho Hfile Heq).
Qed.

End RetentionMore.

Section Endpoints.

Import DatasetViewSet.

(** X15.  [list] returns the datasets of the user and no other, each
    once per row of the table, from the newest to the oldest, with their
    number as the count. *)
Theorem list_newest_first (user : nat) (s : Store) :
  let response := DatasetViews.list user s in
  fst response = List.length (snd response)
  /\ Permutation (snd response) (filter_uploaded_by user (datasets s))
  /\ StronglySorted newer (snd response)
  /\ Forall (fun d => In d (datasets s) /\ Dataset.uploaded_by d = user)
            (snd response).
Proof.
  cbn. split; [reflexivity|]. split; [apply order_by_perm|].
  split; [apply order_by_sorted|].
  apply Forall_forall. intros d Hd.
  apply (Permutation_in _ (order_by_perm _)) in Hd.
  apply filter_In in Hd. destruct Hd as [Hd Hown]. now apply Nat.eqb_eq in Hown.
Qed.

Lemma get_object_Some (user pk : nat) (s : Store) (d : Dataset.t) :
  DatasetViews.get_object user pk s = Some d ->
  In d (datasets s) /\ Dataset.uploaded_by d = user /\ Dataset.id d = pk.
Proof.
  unfold DatasetViews.get_object. intros H. apply find_some in H.
  destruct H as [Hin Hid]. apply Nat.eqb_eq in Hid.
  apply (Permutation_in _ (order_by_perm _)) in Hin.
  apply filter_In in Hin. destruct Hin as [Hin Hown].
  now apply Nat.eqb_eq in Hown.
Qed.

Lemma get_object_None (user pk : nat) (s : Store) (d : Dataset.t) :
  DatasetViews.get_object user pk s = None ->
  In d (datasets s) -> Dataset.uploaded_by d = user -> Dataset.id d <> pk.
Proof.
  unfold DatasetViews.get_object. intros H Hin Hown Hid.
  assert (Hq : In d (DatasetViews.get_queryset user s)).
  { apply (Permutation_in _ (Permutation_sym (order_by_perm _))).
    apply filter_In. split; [easy | now apply Nat.eqb_eq]. }
  pose proof (find_none _ _ H d Hq) as Hf. cbv beta in Hf.
  apply Nat.eqb_neq in Hf. contradiction.
Qed.

(** X16.  [destroy] answers 404 and changes nothing unless the user owns
    a dataset with the primary key; when the user does, it answers 204,
    and the table loses the rows with that primary key and no other. *)
Theorem destroy_own_only (user pk : nat) (s : Store) :
  let response := DatasetViews.destroy user pk s in
  let owned := exists d, In d (datasets s) /\ Dataset.uploaded_by d = user
                         /\ Dataset.id d = pk in
  (~ owned -> response = (DatasetViews.HTTP_404_NOT_FOUND, s))
  /\ (owned ->
      fst response = DatasetViews.HTTP_204_NO_CONTENT
      /\ datasets (snd response)
         = filter (fun d => negb (Dataset.id d =? pk)) (datasets s)
      /\ forall d, In d (datasets (snd response)) <->
                   In d (datasets s) /\ Dataset.id d <> pk).
Proof.
  intros response owned. subst response owned. unfold DatasetViews.destroy.
  destruct (DatasetViews.get_object user pk s) as [d|] eqn:E.
  - apply get_object_Some in E. destruct E as (Hin & Hown & Hid).
    split; [intros H; exfalso; apply H; eauto|]. intros _.
    cbn [fst snd]. split; [reflexivity|].
    assert (Hd : datasets
                   (delete d (if String.eqb (Dataset.file d) "" then s
                              else file_delete d s))
                 = filter (fun d' => negb (Dataset.id d' =? pk)) (datasets s))
      by (rewrite <- Hid; now destruct (String.eqb (Dataset.file d) "")).
    split; [exact Hd|]. intros d'. rewrite Hd, filter_In, negb_true_iff.
    now rewrite Nat.eqb_neq.
  - split; [reflexivity|]. intros (d & Hin & Hown & Hid). exfalso.
    exact (get_object_None user pk s d E Hin Hown Hid).
Qed.

End Endpoints.

(* ================================================================= *)
(** ** [truncate_text] *)

Section TruncateText.

Import Helpers.

Lemma length_substring_0 (n : nat) (s : string) :
  String.length (String.substring 0 n s) = Nat.min n (String.length s).
Proof.
  revert n. induction s as [|c s IH]; intros [|n]; simpl; auto.
Qed.

Lemma length_append (s1 s2 : string) :
  String.length (s1 ++ s2)%string = String.length s1 + String.length s2.
Proof. induction s1 as [|c s1 IH]; simpl; auto. Qed.

Lemma substring_0_prefix (n : nat) (s : string) :
  String.prefix (String.substring 0 n s) s = true.
Proof.
  revert n. induction s as [|c s IH]; intros [|n]; simpl; auto.
  destruct (ascii_dec c c); [apply IH | easy].
Qed.

(** X17.  [truncate_text] returns a text that fits it unchanged (the
    empty text always).  A longer text, when the suffix is no longer
    than [max_length], is cut to its first [max_length - len(suffix)]
    characters followed by the suffix, which makes [max_length]
    characters in all. *)
Theorem truncate_text_fits (text suffix : string) (max_length : Z) :
  let n := Z.of_nat (String.length text) in
  let k := Z.of_nat (String.length suffix) in
  (text = "" -> truncate_text text max_length suffix = "")
  /\ ((n <= max_length)%Z -> truncate_text text max_length suffix = text)
  /\ ((k <= max_length < n)%Z ->
      truncate_text text max_length suffix
      = (String.substring 0 (Z.to_nat (max_length - k)) text ++ suffix)%string
      /\ String.prefix (String.substring 0 (Z.to_nat (max_length - k)) text)
                       text = true
      /\ Z.of_nat (String.length (truncate_text text max_length suffix))
         = max_length).
Proof.
  intros n k. unfold truncate_text. fold n k. split; [|split].
  - now intros ->.
  - intros H. destruct (Z.leb_spec n max_length); [|lia].
    now rewrite orb_true_r.
  - intros [Hk Hn].
    assert (Htext : String.eqb text "" = false).
    { apply String.eqb_neq. intros ->. simpl in n. lia. }
    rewrite Htext. destruct (Z.leb_spec n max_length); [lia|]. cbn [orb].
    unfold slice_to. fold n.
    destruct (Z.ltb_spec (max_length - k) 0); [lia|].
    rewrite Z.min_l by lia.
    split; [reflexivity|]. split; [apply substring_0_prefix|].
    rewrite length_append, length_substring_0. fold k. subst n k. lia.
Qed.

(** X18.  When the suffix is longer than [max_length], a non-empty text
    longer than [max_length] is not shortened to it: the slice counts
    from the end of the text, and the result has
    [max(len(text) + max_length, len(suffix))] characters, more than
    [max_length]. *)
Theorem truncate_text_long_suffix (text suffix : string) (max_length : Z) :
  let n := Z.of_nat (String.length text) in
  let k := Z.of_nat (String.length suffix) in
  text <> "" -> (max_length < k)%Z -> (max_length < n)%Z ->
  Z.of_nat (String.length (truncate_text text max_length suffix))
  = Z.max (n + max_length) k
  /\ (max_length
      < Z.of_nat (String.length (truncate_text text max_length suffix)))%Z.
Proof.
  intros n k Hne Hk Hn. unfold truncate_text. fold n k.
  assert (Htext : String.eqb text "" = false) by now apply String.eqb_neq.
  rewrite Htext. destruct (Z.leb_spec n max_length); [lia|]. cbn [orb].
  unfold slice_to. fold n.
  destruct (Z.ltb_spec (max_length - k) 0); [|lia].
  rewrite length_append, length_substring_0. fold k. subst n k. lia.
Qed.

Lemma truncate_text_long_suffix_witness :
  truncate_text "abcdefghij" 2 "..." = "abcdefghi..."
  /\ Z.of_nat (String.length (truncate_text "abcdefghij" 2 "..."))
     = Z.max (10 + 2) 3.
Proof.
  split; [reflexivity|].
  refine (proj1 (truncate_text_long_suffix "abcdefghij" "..." 2 _ _ _));
    [discriminate | reflexivity | reflexivity].
Defined.

End TruncateText.

(* ================================================================= *)
(** ** Accepted frames and the warnings of a successful parse *)

Section AcceptedFrames.

Import CSVParserService Ingest.

Lemma check_columns_present (l : list string) (df : DataFrame)
    (m : list string) :
  (forall c, In c l -> In c (columns df)) ->
  fold_left check_column l (df, m) = (df, m).
Proof.
  induction l as [|c l IH]; simpl; intros H; [reflexivity|].
  assert (Hc : mem c (columns df) = true) by (apply mem_In, H; now left).
  rewrite Hc. apply IH. intros; apply H; now right.
Qed.

(** X19.  [_validate_columns] leaves a frame that already has the five
    canonical column names as it is, and accepts it without a message;
    so validating again a frame it has accepted changes nothing. *)
Theorem validate_columns_canonical (df : DataFrame) (p : parser) :
  (incl REQUIRED_COLUMNS (columns df) ->
     _validate_columns df p = (inr (df, true), p))
  /\ (absent_columns df = [] ->
      _validate_columns (validated df) p = (inr (validated df, true), p)).
Proof.
  assert (H : forall d, incl REQUIRED_COLUMNS (columns d) ->
                        _validate_columns d p = (inr (d, true), p)).
  { intros d Hd. unfold _validate_columns.
    now rewrite (check_columns_present REQUIRED_COLUMNS d [] Hd). }
  split; [apply H|]. intros Habs. apply H.
  destruct (check_columns_run df) as (_ & _ & Hin & _).
  intros c Hc. apply Hin; [easy|].
  destruct (absent df c) eqn:E; [|easy].
  assert (In c (absent_columns df))
    by (unfold absent_columns; apply filter_In; auto).
  rewrite Habs in *. easy.
Qed.

End AcceptedFrames.

Section ValidateDataRun.

Import CSVParserService Ingest.

Lemma warned_nil (p : parser) : warned p [] = p.
Proof. destruct p. unfold warned. simpl. now rewrite app_nil_r. Qed.

Lemma warned_app (p : parser) (a b : list string) :
  warned (warned p a) b = warned p (a ++ b).
Proof. unfold warned. simpl. now rewrite app_assoc. Qed.

Lemma bind_run {A B : Type} (m : M A) (k : A -> M B) (p p1 : parser) (a : A) :
  m p = (inr a, p1) -> bind m k p = k a p1.
Proof. intros H. unfold bind. now rewrite H. Qed.

Lemma for_each_warned {A : Type} (body : A -> M unit) (w : A -> list string)
    (l : list A) :
  (forall x, In x l -> forall p, body x p = (inr tt, warned p (w x))) ->
  forall p, for_each body l p = (inr tt, warned p (flat_map w l)).
Proof.
  induction l as [|x l IH]; simpl; intros H p.
  - now rewrite warned_nil.
  - rewrite (bind_run _ _ _ _ _ (H x (or_introl eq_refl) p)).
    rewrite IH by (intros; apply H; now right). now rewrite warned_app.
Qed.

Lemma flat_map_if {A B : Type} (b : A -> bool) (w : A -> B) (l : list A) :
  flat_map (fun x => if b x then [w x] else []) l = map w (filter b l).
Proof.
  induction l as [|x l IH]; simpl; [reflexivity|].
  destruct (b x); simpl; now rewrite IH.
Qed.

Lemma flat_map_single {A B : Type} (w : A -> B) (l : list A) :
  flat_map (fun x => [w x]) l = map w l.
Proof. induction l as [|x l IH]; simpl; [reflexivity | now rewrite IH]. Qed.

Lemma filter_map_comm {A B : Type} (f : A -> B) (b : B -> bool) (l : list A) :
  filter b (map f l) = map f (filter (fun x => b (f x)) l).
Proof.
  induction l as [|x l IH]; simpl; [reflexivity|].
  destruct (b (f x)); simpl; now rewrite IH.
Qed.

Lemma filter_complement_length {A : Type} (f : A -> bool) (l : list A) :
  List.length l - List.length (filter f l)
  = List.length (filter (fun x => negb (f x)) l).
Proof.
  induction l as [|x l IH]; [reflexivity|]. cbn [filter].
  pose proof (filter_length_le f l).
  destruct (f x); cbn [negb List.length]; lia.
Qed.

Lemma comprehension_map {A B : Type} (f : A -> option B) (g : A -> B)
    (l : list A) :
  (forall x, In x l -> f x = Some (g x)) -> comprehension f l = Some (map g l).
Proof.
  intros H. rewrite <- comprehension_total. now apply comprehension_ext.
Qed.

Lemma any_negative_existsb (cells : list cell) :
  Forall (fun c => is_number c = true) cells ->
  Frame.any_negative cells = Some (existsb is_negative cells).
Proof.
  intros H. unfold Frame.any_negative.
  rewrite (comprehension_map Frame.negative is_negative).
  - simpl. f_equal. induction cells as [|c cells IH]; simpl; [reflexivity|].
    inversion H; subst. now rewrite IH.
  - intros c Hc. rewrite Forall_forall in H. specialize (H c Hc).
    destruct c; simpl; easy.
Qed.

Lemma cells_of_column (col : string) (df : DataFrame) :
  In col (columns df) -> Frame.column col df = Some (cells_of col df).
Proof.
  intros Hin. unfold cells_of, Frame.column.
  destruct (position_In col (columns df) Hin) as [i ->]. reflexivity.
Qed.

(** The run of [_validate_data] on a frame that has the required
    columns, only numbers in the measurement columns, and a row with its
    three measurements. *)
Lemma validate_data_run (df : DataFrame) (p : parser) :
  incl REQUIRED_COLUMNS (columns df) ->
  (forall col i row, In col measurements ->
     Frame.position col (columns df) = Some i -> In row (rows df) ->
     is_number (Frame.at_position i row) = true) ->
  (exists row, In row (rows df) /\ complete measurements df row = true) ->
  _validate_data df p = (inr true, warned p (data_warnings df)).
Proof.
  intros Hcols Hnum (row0 & Hrow0 & Hc0).
  assert (Hmeas : incl measurements REQUIRED_COLUMNS)
    by (intros c Hc; simpl in *; tauto).
  destruct (comprehension_Some (fun col => Frame.position col (columns df))
              measurements) as [ps Hps].
  { intros col Hc. apply position_In, Hcols, Hmeas, Hc. }
  fold (Frame.positions measurements df) in Hps.
  assert (Hcomplete : forall row, complete measurements df row
                                  = Frame.complete_at ps row)
    by (intros row; unfold complete; now rewrite Hps).
  assert (Hempty : Frame.empty df = false).
  { unfold Frame.empty. apply orb_false_iff. split; apply Nat.eqb_neq.
    - assert (H : In "Type" (columns df)) by (apply Hcols; simpl; auto).
      destruct (columns df); [easy | discriminate].
    - destruct (rows df); [easy | discriminate]. }
  unfold _validate_data. rewrite Hempty.
  rewrite (comprehension_map _
             (fun col => (col, Frame.null_count (cells_of col df)))).
  2:{ intros col Hc. now rewrite (cells_of_column col df (Hcols col Hc)). }
  unfold found at 1. unfold bind at 1, ret at 1.
  rewrite filter_map_comm. cbn [snd].
  rewrite (bind_run _ _ _ _ _
             (for_each_warned _ (fun cc => [missing_values_warning (fst cc) (snd cc)])
                _ (fun x _ q => eq_refl) p)).
  rewrite flat_map_single, map_map. cbn [fst snd].
  unfold Frame.dropna_subset.
  change ["Flowrate"; "Pressure"; "Temperature"] with measurements.
  rewrite Hps. cbn [option_map]. unfold found at 1. unfold bind at 1, ret at 1.
  cbn [rows columns]. rewrite filter_complement_length.
  rewrite (filter_ext_in' (fun row => negb (Frame.complete_at ps row))
             (fun row => negb (complete measurements df row)))
    by (intros; now rewrite Hcomplete).
  fold (incomplete_rows df). fold (dropped_rows_warning (incomplete_rows df)).
  set (q1 := warned p _).
  assert (Hdrop : (if 0 <? incomplete_rows df
                   then add_warning (dropped_rows_warning (incomplete_rows df))
                   else ret tt) q1
                  = (inr tt,
                     warned q1 (if 0 <? incomplete_rows df
                                then [dropped_rows_warning (incomplete_rows df)]
                                else []))).
  { destruct (0 <? incomplete_rows df); [reflexivity|]. now rewrite warned_nil. }
  rewrite (bind_run _ _ _ _ _ Hdrop). set (q2 := warned q1 _).
  assert (Hclean : Frame.empty
                     {| columns := columns df;
                        rows := filter (Frame.complete_at ps) (rows df) |}
                   = false).
  { unfold Frame.empty in *. cbn [columns rows].
    apply orb_false_iff in Hempty. destruct Hempty as [-> _]. simpl.
    apply Nat.eqb_neq.
    assert (H : In row0 (filter (Frame.complete_at ps) (rows df)))
      by (apply filter_In; split; [easy | now rewrite <- Hcomplete]).
    destruct (filter _ (rows df)); [easy | discriminate]. }
  rewrite Hclean.
  erewrite bind_run.
  2:{ apply (for_each_warned _
               (fun col => if existsb is_negative (cells_of col df)
                           then [negative_values_warning col] else [])).
      intros col Hc q.
      change ["Flowrate"; "Pressure"; "Temperature"] with measurements in Hc.
      rewrite (cells_of_column col df (Hcols col (Hmeas col Hc))).
      unfold found at 1. unfold bind at 1, ret at 1.
      rewrite any_negative_existsb.
      - unfold found, bind, ret. fold (negative_values_warning col).
        destruct (existsb is_negative (cells_of col df)); [reflexivity|].
        now rewrite warned_nil.
      - destruct (position_In col (columns df) (Hcols col (Hmeas col Hc)))
          as [i Hi].
        unfold cells_of, Frame.column. rewrite Hi. cbn [option_map].
        apply Forall_map, Forall_forall. intros row Hrow.
        now apply (Hnum col). }
  rewrite flat_map_if. unfold ret. f_equal.
  subst q2 q1. rewrite !warned_app. reflexivity.
Qed.

End ValidateDataRun.

Section ParseFileWarnings.

Import CSVParserService Ingest.

Variable to_numeric_text : string -> option float.
Variable float_str : float -> string.

Abbreviation parse_file := (parse_file to_numeric_text float_str).
Abbreviation _clean_data := (_clean_data to_numeric_text float_str).

(** X20.  The warnings of a successful parse are, in this order: the
    encoding warning when the file was not UTF-8; for each required
    column of the cleaned frame with missing values, their number; the
    number of rows without one of the three measurements, when there is
    one; and each measurement column with a value below zero.  Negative
    values and incomplete rows are thus reported and do not fail the
    parse. *)
Theorem parse_file_warnings (utf8 : bool) (df : DataFrame) (self : parser) :
  let result := parse_file (Content utf8 (inr df)) self in
  snd (fst result) = true ->
  get_warnings (snd result)
  = (if utf8 then [] else [latin1_warning])
    ++ data_warnings (_clean_data (validated df)).
Proof.
  intros result Hok. subst result.
  unfold CSVParserService.parse_file, get_warnings in *.
  rewrite parse_body_content in *. cbv zeta in *.
  set (pw := if utf8 then _ else _) in *.
  assert (Hpw : warnings pw = if utf8 then [] else [latin1_warning])
    by (subst pw; now destruct utf8).
  destruct (absent_columns df) as [|c cs] eqn:Habs; [|discriminate Hok].
  destruct (_validate_data _ pw) as [[e | [|]] p'] eqn:E;
    [destruct e; discriminate Hok | | discriminate Hok].
  pose proof (validate_data_verdict _ _ _ _ E) as Hv. cbn beta iota in Hv.
  destruct Hv as [_ Hrow].
  rewrite validate_data_run in E.
  - injection E as <-. cbn [snd]. unfold warned. cbn [warnings].
    now rewrite Hpw.
  - now apply cleaned_frame_columns.
  - intros col i row Hcol Hpos Hin. rewrite clean_data_rows in Hpos, Hin.
    cbn [columns rows] in Hpos, Hin. apply in_map_iff in Hin.
    destruct Hin as (row0 & <- & _).
    now apply (clean_row_number to_numeric_text float_str _ _ col).
  - exact Hrow.
Qed.

End ParseFileWarnings.

Lemma parse_file_warnings_witness :
  CSVParserService.get_warnings
    (snd (CSVParserService.parse_file Ingest.decimal_text Ingest.nan_str
            (CSVParserService.Content false (inr Ingest.blank_flowrate))
            {| CSVParserService.errors := []; CSVParserService.warnings := [] |}))
  = [Ingest.latin1_warning]
    ++ data_warnings
         (CSVParserService._clean_data Ingest.decimal_text Ingest.nan_str
            (Ingest.validated Ingest.blank_flowrate)).
Proof.
  refine (parse_file_warnings Ingest.decimal_text Ingest.nan_str false
            Ingest.blank_flowrate _ _).
  reflexivity.
Defined.

Example data_warnings_blank_flowrate :
  data_warnings
    (CSVParserService._clean_data Ingest.decimal_text Ingest.nan_str
       (Ingest.validated Ingest.blank_flowrate))
  = ["Column 'Flowrate' has 1 missing values.";
     "Dropped 1 rows with missing numeric values."].
Proof. vm_compute. reflexivity. Qed.
